(** * European option pricing engines: Black-Scholes, binomial tree, Monte Carlo

    A shallow embedding of [core/option_pricing] and the properties of its
    three engines.

    Conventions of the embedding.
    - Python and numpy floating-point numbers are read as real numbers:
      [np.exp], [np.log], [np.sqrt] are [exp], [ln], [sqrt], and the
      arithmetic operators are the field operations of [R].  Every statement
      below is therefore a statement of exact real arithmetic.
    - A one-dimensional numpy array is a [list R]; elementwise operators are
      maps over the list, a slice is the corresponding sub-list.
    - [scipy.stats.norm.cdf] is a variable of the development.
    - numpy's process-wide random generator is an explicit state that is
      threaded through every function that reads or writes it.
    - Inputs at which Python raises [ZeroDivisionError] or numpy yields
      [inf] or [nan] (a zero strike, volatility or step count, a maturity
      that is not in the future) lie outside the hypotheses of the
      statements about prices. *)

From Stdlib Require Import Reals Lra Lia List ZArith String Classical.
Import ListNotations.
Open Scope R_scope.

(** ** base.py *)

Inductive OPTION_TYPE : Type :=
  | CALL_OPTION
  | PUT_OPTION.

(** The values a caller can pass as [option_type]: a member of the enum or
    any other Python object.  The string ['Call Option'] is the _value_ of
    the member [CALL_OPTION], not the member. *)
Inductive pyobj : Type :=
  | PyEnum (o : OPTION_TYPE)
  | PyStr (s : string)
  | PyInt (z : Z)
  | PyNone.

(** [x == OPTION_TYPE.m]: enum members compare by identity. *)
Definition py_eq (x : pyobj) (m : OPTION_TYPE) : bool :=
  match x, m with
  | PyEnum CALL_OPTION, CALL_OPTION => true
  | PyEnum PUT_OPTION, PUT_OPTION => true
  | _, _ => false
  end.

Inductive exn : Type :=
  | ValueError (msg : string)
  | IndexError (msg : string)
  | AttributeError (msg : string).

Inductive result (A : Type) : Type :=
  | Return (a : A)
  | Raise (e : exn).
Arguments Return {A} a.
Arguments Raise {A} e.

Definition invalid_option_type_msg : string :=
  "Invalid option type. Must be OPTION_TYPE.CALL_OPTION or OPTION_TYPE.PUT_OPTION.".

(** The error the specification calls [InvalidOptionType]. *)
Definition InvalidOptionType : exn := ValueError invalid_option_type_msg.

(** ** numpy arrays *)

Module np.

(** [np.maximum(x, 0)] on a scalar. *)
Definition maximum (x y : R) : R := Rmax x y.

(** Elementwise [c * V]. *)
Definition scale (c : R) (V : list R) : list R := map (Rmult c) V.

(** Elementwise [V + W] of two arrays of the same shape. *)
Fixpoint add (V W : list R) : list R :=
  match V, W with
  | x :: V', y :: W' => (x + y) :: add V' W'
  | _, _ => []
  end.

(** [np.arange(n)]. *)
Definition arange (n : nat) : list nat := seq 0 n.

Definition sum (V : list R) : R := fold_right Rplus 0 V.

(** [np.mean(V)]. *)
Definition mean (V : list R) : R := sum V / INR (List.length V).

(** [V[:-1]] and [V[1:]]. *)
Definition but_last (V : list R) : list R := removelast V.
Definition from_1 (V : list R) : list R := tl V.

(** [V[0]]. *)
Definition item0 (V : list R) : result R :=
  match V with
  | x :: _ => Return x
  | [] => Raise (IndexError "index 0 is out of bounds for axis 0 with size 0")
  end.

(** [np.random]: the legacy process-wide generator.  What the generator
    does is numpy's business; the embedding fixes only its interface: the
    state installed by [np.random.seed(n)], and the draw of one standard
    normal variate, which returns the variate and the next state. *)
Module random.

Class BitGenerator : Type := {
  state : Type;
  seeded : Z -> state;
  gauss : state -> R * state
}.

Section Global.
Context {G : BitGenerator}.

(** [np.random.seed(n)] overwrites the process-wide state. *)
Definition seed (n : Z) (g : state) : state := seeded n.

(** [np.random.standard_normal(size)]: [size] successive variates. *)
Fixpoint standard_normal (size : nat) (g : state) : list R * state :=
  match size with
  | O => ([], g)
  | S size' =>
      let (z, g1) := gauss g in
      let (Z, g2) := standard_normal size' g1 in
      (z :: Z, g2)
  end.

End Global.
End random.

End np.

(** [for _ in range(n): V = body(V)]. *)
Fixpoint for_range {A : Type} (n : nat) (body : A -> A) (V : A) : A :=
  match n with
  | O => V
  | S n' => for_range n' body (body V)
  end.

(** ** BlackScholesModel.py *)

Module BlackScholesModel.
Section WithNormCdf.

(** [scipy.stats.norm.cdf]. *)
Variable norm_cdf : R -> R.

Record t : Type := mk {
  S : R;
  K : R;
  T : R;
  r : R;
  sigma : R;
  d1 : R;
  d2 : R
}.

Definition _compute_d1_d2 (self : t) : t :=
  let sqrt_T := sqrt (T self) in
  let sigma_sqrt_T := sigma self * sqrt_T in
  let log_SK := ln (S self / K self) in
  let d1' := (log_SK + (r self + 0.5 * sigma self ^ 2) * T self) / sigma_sqrt_T in
  let d2' := d1' - sigma_sqrt_T in
  mk (S self) (K self) (T self) (r self) (sigma self) d1' d2'.

(** The attributes [d1] and [d2] do not exist before [_compute_d1_d2]
    assigns them; the record is built with [0] in their place and they
    are overwritten at once. *)
Definition __init__ (underlying_spot_price strike_price : R)
    (days_to_maturity : Z) (risk_free_rate sigma : R) : t :=
  let self :=
    mk underlying_spot_price strike_price (IZR days_to_maturity / 365)
       risk_free_rate sigma 0 0 in
  _compute_d1_d2 self.

Definition calculate_option_price (self : t) (option_type : pyobj) : result R :=
  if py_eq option_type CALL_OPTION then
    Return (S self * norm_cdf (d1 self)
            - K self * exp (- r self * T self) * norm_cdf (d2 self))
  else if py_eq option_type PUT_OPTION then
    Return (K self * exp (- r self * T self) * norm_cdf (- d2 self)
            - S self * norm_cdf (- d1 self))
  else
    Raise (ValueError invalid_option_type_msg).

End WithNormCdf.
End BlackScholesModel.

(** ** BinomialTreeModel.py *)

Module BinomialTreeModel.

Record t : Type := mk {
  S : R;
  K : R;
  T : R;
  r : R;
  sigma : R;
  N : nat;
  dT : R;
  u : R;
  d : R;
  a : R;
  p : R;
  q : R;
  discount : R
}.

Definition __init__ (underlying_spot_price strike_price : R)
    (days_to_maturity : Z) (risk_free_rate sigma : R)
    (number_of_time_steps : nat) : t :=
  let S := underlying_spot_price in
  let K := strike_price in
  let T := IZR days_to_maturity / 365 in
  let r := risk_free_rate in
  let N := number_of_time_steps in
  let dT := T / INR N in
  let u := exp (sigma * sqrt dT) in
  let d := 1 / u in
  let a := exp (r * dT) in
  let p := (a - d) / (u - d) in
  let q := 1 - p in
  let discount := exp (- r * dT) in
  mk S K T r sigma N dT u d a p q discount.

(** The two lambdas bound to [payoff_function]. *)
Definition call_payoff (self : t) (S : R) : R := np.maximum (S - K self) 0.
Definition put_payoff (self : t) (S : R) : R := np.maximum (K self - S) 0.

(** [S * u ** (N - j) * d ** j] over [j = np.arange(N + 1)]. *)
Definition terminal_prices (self : t) : list R :=
  let j := np.arange (N self + 1) in
  map (fun j => S self * u self ^ (N self - j) * d self ^ j) j.

(** The body of the backward-induction loop:
    [discount * (p * V[:-1] + q * V[1:])]. *)
Definition backward_step (self : t) (V : list R) : list R :=
  np.scale (discount self)
    (np.add (np.scale (p self) (np.but_last V))
            (np.scale (q self) (np.from_1 V))).

Definition calculate_option_price (self : t) (option_type : pyobj) : result R :=
  let price payoff_function :=
    let S_T := terminal_prices self in
    let V := map payoff_function S_T in
    let V := for_range (N self) (backward_step self) V in
    np.item0 V in
  if py_eq option_type CALL_OPTION then price (call_payoff self)
  else if py_eq option_type PUT_OPTION then price (put_payoff self)
  else Raise (ValueError invalid_option_type_msg).

End BinomialTreeModel.


(** ** MonteCarloSimulation.py *)

Module MonteCarloPricing.
Section WithGenerator.
Context {G : np.random.BitGenerator}.

(** [S_T] and [price_paths] are attributes that exist only once they have
    been assigned: [None] is the absent attribute. *)
Record t : Type := mk {
  S_0 : R;
  K : R;
  T : R;
  r : R;
  sigma : R;
  N : nat;
  discount_factor : R;
  S_T : option (list R);
  price_paths : option (list (list R))
}.

Definition set_S_T (self : t) (v : list R) : t :=
  mk (S_0 self) (K self) (T self) (r self) (sigma self) (N self)
     (discount_factor self) (Some v) (price_paths self).

Definition set_price_paths (self : t) (v : list (list R)) : t :=
  mk (S_0 self) (K self) (T self) (r self) (sigma self) (N self)
     (discount_factor self) (S_T self) (Some v).

Definition __init__ (underlying_spot_price strike_price : R)
    (days_to_maturity : Z) (risk_free_rate sigma : R)
    (number_of_simulations : nat) (g : np.random.state) : t * np.random.state :=
  let T := IZR days_to_maturity / 365 in
  let g := np.random.seed 20 g in
  let discount_factor := exp (- risk_free_rate * T) in
  (mk underlying_spot_price strike_price T risk_free_rate sigma
      number_of_simulations discount_factor None None, g).

(** One terminal price from one variate. *)
Definition terminal_price (self : t) (z : R) : R :=
  S_0 self * exp ((r self - 0.5 * sigma self ^ 2) * T self
                  + sigma self * sqrt (T self) * z).

Definition simulate_terminal_prices (self : t) (g : np.random.state)
    : t * np.random.state :=
  let (Z, g) := np.random.standard_normal (N self) g in
  (set_S_T self (map (terminal_price self) Z), g).

Definition call_payoffs (self : t) (S_T : list R) : list R :=
  map (fun s => np.maximum (s - K self) 0) S_T.

Definition put_payoffs (self : t) (S_T : list R) : list R :=
  map (fun s => np.maximum (K self - s) 0) S_T.

(** Reading [self.S_T]. *)
Definition get_S_T (self : t) : result (list R) :=
  match S_T self with
  | Some v => Return v
  | None => Raise (AttributeError "'MonteCarloPricing' object has no attribute 'S_T'")
  end.

Definition calculate_option_price (self : t) (option_type : pyobj)
    (g : np.random.state) : result R * t * np.random.state :=
  (* try: self.S_T  except AttributeError: self.simulate_terminal_prices() *)
  let (self, g) :=
    match get_S_T self with
    | Return _ => (self, g)
    | Raise _ => simulate_terminal_prices self g
    end in
  let price (payoffs : list R -> list R) : result R :=
    match get_S_T self with
    | Return S_T => Return (discount_factor self * np.mean (payoffs S_T))
    | Raise e => Raise e
    end in
  let res :=
    if py_eq option_type CALL_OPTION then price (call_payoffs self)
    else if py_eq option_type PUT_OPTION then price (put_payoffs self)
    else Raise (ValueError invalid_option_type_msg) in
  (res, self, g).

(** One row of the path matrix from the previous one:
    [S[t - 1] * np.exp((r - 0.5 * sigma ** 2) * dt + sigma * np.sqrt(dt) * Z[t - 1])]. *)
Definition path_step (self : t) (dt : R) (prev Zrow : list R) : list R :=
  map (fun sz => fst sz * exp ((r self - 0.5 * sigma self ^ 2) * dt
                               + sigma self * sqrt dt * snd sz))
      (combine prev Zrow).

(** The rows [S[t], S[t + 1], ...] that follow the row [prev]. *)
Fixpoint path_rows (self : t) (dt : R) (prev : list R) (Z : list (list R))
    : list (list R) :=
  match Z with
  | [] => []
  | Zrow :: Z' =>
      let row := path_step self dt prev Zrow in
      row :: path_rows self dt row Z'
  end.

(** [np.random.standard_normal((rows, cols))]: the matrix is filled row by
    row. *)
Fixpoint standard_normal_matrix (rows cols : nat) (g : np.random.state)
    : list (list R) * np.random.state :=
  match rows with
  | O => ([], g)
  | S rows' =>
      let (row, g1) := np.random.standard_normal cols g in
      let (rest, g2) := standard_normal_matrix rows' cols g1 in
      (row :: rest, g2)
  end.

Definition simulate_price_paths (self : t) (num_time_steps : nat)
    (g : np.random.state) : t * np.random.state :=
  let dt := T self / INR num_time_steps in
  let S0 := repeat (S_0 self) (N self) in
  let (Z, g) := standard_normal_matrix num_time_steps (N self) g in
  (set_price_paths self (S0 :: path_rows self dt S0 Z), g).

End WithGenerator.
End MonteCarloPricing.

(** * Properties *)

(** ** Arrays *)

Section ArrayFacts.

Lemma length_scale (c : R) (V : list R) :
  List.length (np.scale c V) = List.length V.
Proof. unfold np.scale. apply length_map. Qed.

Lemma length_add (V W : list R) :
  List.length (np.add V W) = Nat.min (List.length V) (List.length W).
Proof.
  revert W. induction V as [|x V IH]; intros [|y W]; simpl; auto.
Qed.

Lemma length_but_last (V : list R) :
  List.length (np.but_last V) = Nat.pred (List.length V).
Proof.
  unfold np.but_last.
  induction V as [|x [|y V] IH]; simpl in *; auto.
Qed.

Lemma length_from_1 (V : list R) :
  List.length (np.from_1 V) = Nat.pred (List.length V).
Proof. destruct V; reflexivity. Qed.

Lemma nth_scale (c : R) (V : list R) (i : nat) :
  nth i (np.scale c V) 0 = c * nth i V 0.
Proof.
  unfold np.scale. revert i.
  induction V as [|x V IH]; intros [|i]; simpl; auto; lra.
Qed.

Lemma nth_add (V W : list R) (i : nat) :
  (i < List.length V)%nat -> (i < List.length W)%nat ->
  nth i (np.add V W) 0 = nth i V 0 + nth i W 0.
Proof.
  revert W i. induction V as [|x V IH]; intros [|y W] [|i]; simpl; intros;
    try lia; auto.
  apply IH; lia.
Qed.

Lemma nth_but_last (V : list R) (i : nat) :
  (S i < List.length V)%nat -> nth i (np.but_last V) 0 = nth i V 0.
Proof.
  unfold np.but_last. revert i.
  induction V as [|x [|y V] IH]; intros i Hi; simpl in *; try lia.
  destruct i as [|i]; auto. apply IH. lia.
Qed.

Lemma nth_from_1 (V : list R) (i : nat) :
  nth i (np.from_1 V) 0 = nth (S i) V 0.
Proof. destruct V; simpl; auto. destruct i; auto. Qed.

Lemma sum_nonneg (V : list R) :
  (forall x, In x V -> 0 <= x) -> 0 <= np.sum V.
Proof.
  induction V as [|x V IH]; simpl; intros H; [lra|].
  assert (0 <= x) by (apply H; auto).
  assert (0 <= np.sum V) by (apply IH; intros; apply H; auto).
  lra.
Qed.

Lemma for_range_succ_r {A : Type} (n : nat) (body : A -> A) (V : A) :
  for_range (S n) body V = body (for_range n body V).
Proof.
  revert V. induction n as [|n IH]; intros V; [reflexivity|].
  change (for_range (S (S n)) body V) with (for_range (S n) body (body V)).
  rewrite IH. reflexivity.
Qed.

End ArrayFacts.

(** ** The binomial tree *)

Section BinomialTree.
Import BinomialTreeModel.

Variable self : BinomialTreeModel.t.

Lemma length_terminal_prices :
  List.length (terminal_prices self) = (N self + 1)%nat.
Proof.
  unfold terminal_prices, np.arange. rewrite length_map, length_seq. reflexivity.
Qed.

Lemma nth_terminal_prices (j : nat) :
  (j <= N self)%nat ->
  nth j (terminal_prices self) 0
  = BinomialTreeModel.S self * u self ^ (N self - j) * d self ^ j.
Proof.
  intros Hj. unfold terminal_prices, np.arange.
  set (f := fun j : nat => BinomialTreeModel.S self * u self ^ (N self - j) * d self ^ j).
  rewrite (nth_indep _ 0 (f 0%nat)) by (rewrite length_map, length_seq; lia).
  rewrite map_nth, seq_nth by lia. reflexivity.
Qed.

Lemma length_backward_step (V : list R) :
  List.length (backward_step self V) = Nat.pred (List.length V).
Proof.
  unfold backward_step.
  rewrite length_scale, length_add, !length_scale, length_but_last, length_from_1.
  lia.
Qed.

Lemma nth_backward_step (V : list R) (i : nat) :
  (Datatypes.S i < List.length V)%nat ->
  nth i (backward_step self V) 0
  = discount self * (p self * nth i V 0 + q self * nth (Datatypes.S i) V 0).
Proof.
  intros Hi. unfold backward_step.
  rewrite nth_scale, nth_add, !nth_scale, nth_but_last, nth_from_1; auto.
  - rewrite length_scale, length_but_last. lia.
  - rewrite length_scale, length_from_1. lia.
Qed.

Lemma length_for_range_backward (k : nat) (V : list R) :
  List.length (for_range k (backward_step self) V) = (List.length V - k)%nat.
Proof.
  revert V. induction k as [|k IH]; intros V; simpl; [lia|].
  rewrite IH, length_backward_step. lia.
Qed.

End BinomialTree.

(** ** Finite sums and the binomial recurrence *)

(** [psum f n] is [f 0 + ... + f (n - 1)]; unlike [sum_f_R0] it has an empty
    case, which the index shifts below need. *)
Fixpoint psum (f : nat -> R) (n : nat) : R :=
  match n with
  | O => 0
  | S n' => psum f n' + f n'
  end.

Section Sums.

Lemma psum_sum_f_R0 (f : nat -> R) (n : nat) :
  sum_f_R0 f n = psum f (S n).
Proof.
  induction n as [|n IH]; simpl in *; [lra|]. rewrite IH. reflexivity.
Qed.

Lemma psum_ext (f g : nat -> R) (n : nat) :
  (forall j, (j < n)%nat -> f j = g j) -> psum f n = psum g n.
Proof.
  induction n as [|n IH]; intros H; simpl; [reflexivity|].
  rewrite IH, H by (intros; try apply H; lia). reflexivity.
Qed.

Lemma psum_shift (f : nat -> R) (n : nat) :
  psum f (S n) = f 0%nat + psum (fun j => f (S j)) n.
Proof.
  induction n as [|n IH]; [simpl; lra|].
  change (psum f (S (S n))) with (psum f (S n) + f (S n)).
  rewrite IH. simpl. lra.
Qed.

Lemma psum_plus (f g : nat -> R) (n : nat) :
  psum (fun j => f j + g j) n = psum f n + psum g n.
Proof. induction n as [|n IH]; simpl; [lra|]. rewrite IH. lra. Qed.

Lemma psum_scal (c : R) (f : nat -> R) (n : nat) :
  psum (fun j => c * f j) n = c * psum f n.
Proof. induction n as [|n IH]; simpl; [lra|]. rewrite IH. lra. Qed.

Lemma psum_nonneg (f : nat -> R) (n : nat) :
  (forall j, (j < n)%nat -> 0 <= f j) -> 0 <= psum f n.
Proof.
  induction n as [|n IH]; intros H; simpl; [lra|].
  assert (0 <= psum f n) by (apply IH; intros; apply H; lia).
  assert (0 <= f n) by (apply H; lia). lra.
Qed.

Lemma C_n_0 (n : nat) : C n 0 = 1.
Proof.
  unfold C. rewrite Nat.sub_0_r. simpl.
  field. apply INR_fact_neq_0.
Qed.

Lemma C_n_n (n : nat) : C n n = 1.
Proof.
  unfold C. rewrite Nat.sub_diag. simpl.
  field. apply INR_fact_neq_0.
Qed.

(** The weight of the path with [j] down-moves among [k] steps. *)
Definition binomial_weight (p q : R) (k j : nat) : R :=
  C k j * p ^ (k - j) * q ^ j.

(** Pascal's rule, in the form in which one backward-induction step uses
    it. *)
Lemma binomial_weight_step (p q : R) (f : nat -> R) (k : nat) :
  psum (fun j => binomial_weight p q k j * (p * f j + q * f (S j))) (S k)
  = psum (fun j => binomial_weight p q (S k) j * f j) (S (S k)).
Proof.
  unfold binomial_weight.
  (* left-hand side: split into the [p] part and the [q] part *)
  rewrite (psum_ext _ (fun j => p * (C k j * p ^ (k - j) * q ^ j * f j)
                               + q * (C k j * p ^ (k - j) * q ^ j * f (S j))))
    by (intros; ring).
  rewrite psum_plus, !psum_scal.
  (* peel the first term of the [p] part and the last of the [q] part *)
  rewrite (psum_shift (fun j => C k j * p ^ (k - j) * q ^ j * f j)).
  change (psum (fun j => C k j * p ^ (k - j) * q ^ j * f (S j)) (S k))
    with (psum (fun j => C k j * p ^ (k - j) * q ^ j * f (S j)) k
          + C k k * p ^ (k - k) * q ^ k * f (S k)).
  (* right-hand side: peel the first and the last term *)
  rewrite (psum_shift (fun j => C (S k) j * p ^ (S k - j) * q ^ j * f j)).
  change (psum (fun j => C (S k) (S j) * p ^ (S k - S j) * q ^ S j * f (S j)) (S k))
    with (psum (fun j => C (S k) (S j) * p ^ (S k - S j) * q ^ S j * f (S j)) k
          + C (S k) (S k) * p ^ (S k - S k) * q ^ S k * f (S k)).
  rewrite (psum_ext (fun j => C (S k) (S j) * p ^ (S k - S j) * q ^ S j * f (S j))
             (fun j => p * (C k (S j) * p ^ (k - S j) * q ^ S j * f (S j))
                       + q * (C k j * p ^ (k - j) * q ^ j * f (S j))) k).
  - rewrite psum_plus, !psum_scal.
    rewrite !C_n_0, !C_n_n, !Nat.sub_diag, !Nat.sub_0_r. simpl. ring.
  - intros j Hj.
    rewrite <- (pascal k j Hj).
    replace (S k - S j)%nat with (S (k - S j)) by lia.
    replace (k - j)%nat with (S (k - S j)) by lia.
    simpl. ring.
Qed.

End Sums.

Section BinomialClosedForm.
Import BinomialTreeModel.

Variable self : BinomialTreeModel.t.

(** After [k] backward steps the node [i] holds the discounted binomial
    average of the [k + 1] values above it. *)
Lemma nth_for_range_backward (k : nat) :
  forall (V : list R) (i : nat),
    (i + k < List.length V)%nat ->
    nth i (for_range k (backward_step self) V) 0
    = discount self ^ k
      * psum (fun j => binomial_weight (p self) (q self) k j * nth (i + j) V 0)
             (Datatypes.S k).
Proof.
  induction k as [|k IH]; intros V i Hi.
  - simpl. unfold binomial_weight. rewrite C_n_0, Nat.add_0_r. simpl. ring.
  - change (for_range (Datatypes.S k) (backward_step self) V)
      with (for_range k (backward_step self) (backward_step self V)).
    rewrite IH by (rewrite length_backward_step; lia).
    rewrite <- binomial_weight_step.
    rewrite (psum_ext _
               (fun j => discount self
                         * (binomial_weight (p self) (q self) k j
                            * (p self * nth (i + j) V 0
                               + q self * nth (i + Datatypes.S j) V 0)))).
    + rewrite psum_scal. simpl. ring.
    + intros j Hj. rewrite nth_backward_step by lia.
      replace (Datatypes.S (i + j)) with (i + Datatypes.S j)%nat by lia. ring.
Qed.

End BinomialClosedForm.

Section BinomialTreeClaims.
Import BinomialTreeModel.

(** The payoff the lattice engine applies for a member of the enum. *)
Definition lattice_payoff (K : R) (ot : OPTION_TYPE) (S_T : R) : R :=
  match ot with
  | CALL_OPTION => Rmax (S_T - K) 0
  | PUT_OPTION => Rmax (K - S_T) 0
  end.

Lemma calculate_option_price_enum (self : BinomialTreeModel.t) (ot : OPTION_TYPE) :
  calculate_option_price self (PyEnum ot)
  = np.item0 (for_range (N self) (backward_step self)
                (map (lattice_payoff (K self) ot) (terminal_prices self))).
Proof. destruct ot; reflexivity. Qed.

Lemma item0_singleton (V : list R) :
  List.length V = 1%nat -> V = [nth 0 V 0] /\ np.item0 V = Return (nth 0 V 0).
Proof.
  destruct V as [|x [|y V]]; simpl; intros H; try discriminate. auto.
Qed.

(** C2. A binomial-tree model built with [N >= 1] steps holds the per-step
    constants [u = exp (sigma * sqrt (T / N))], [d = 1 / u],
    [p = (exp (r * T / N) - d) / (u - d)], [q = 1 - p] and
    [discount = exp (- r * T / N)]; for CALL or PUT, [calculate_option_price]
    builds the [N + 1] terminal prices [S * u ^ (N - j) * d ^ j], applies
    the payoff to each, runs [N] backward steps, each of which turns
    [n + 1] values into the [n] values
    [discount * (p * V_i + q * V_(i+1))], and returns the one value left. *)
Theorem binomial_tree_algorithm
    (S0 K0 : R) (days : Z) (r0 sigma0 : R) (steps : nat) (ot : OPTION_TYPE) :
  (1 <= steps)%nat ->
  let self := BinomialTreeModel.__init__ S0 K0 days r0 sigma0 steps in
  let T := IZR days / 365 in
  let payoffs := map (lattice_payoff K0 ot) (terminal_prices self) in
  (N self = steps
   /\ u self = exp (sigma0 * sqrt (T / INR steps))
   /\ d self = 1 / u self
   /\ p self = (exp (r0 * T / INR steps) - d self) / (u self - d self)
   /\ q self = 1 - p self
   /\ discount self = exp (- r0 * T / INR steps))
  /\ (List.length (terminal_prices self) = (steps + 1)%nat
      /\ forall j, (j <= steps)%nat ->
           nth j (terminal_prices self) 0 = S0 * u self ^ (steps - j) * d self ^ j)
  /\ (List.length payoffs = (steps + 1)%nat
      /\ forall j, (j <= steps)%nat ->
           nth j payoffs 0
           = lattice_payoff K0 ot (S0 * u self ^ (steps - j) * d self ^ j))
  /\ (forall (V : list R) (n : nat),
        List.length V = Datatypes.S n ->
        List.length (backward_step self V) = n
        /\ forall i, (i < n)%nat ->
             nth i (backward_step self V) 0
             = discount self * (p self * nth i V 0 + q self * nth (Datatypes.S i) V 0))
  /\ (forall k, (k <= steps)%nat ->
        List.length (for_range k (backward_step self) payoffs) = (steps + 1 - k)%nat)
  /\ exists v,
       for_range steps (backward_step self) payoffs = [v]
       /\ calculate_option_price self (PyEnum ot) = Return v.
Proof.
  intros Hsteps self T payoffs.
  assert (HN : INR steps <> 0) by (apply not_0_INR; lia).
  assert (Hlen : List.length (terminal_prices self) = (steps + 1)%nat)
    by apply (length_terminal_prices self).
  assert (Hlenp : List.length payoffs = (steps + 1)%nat)
    by (unfold payoffs; rewrite length_map; exact Hlen).
  split; [|split; [|split; [|split; [|split]]]].
  - unfold self, T; simpl. repeat split; try reflexivity.
    + replace (r0 * (IZR days / 365 / INR steps))
        with (r0 * (IZR days / 365) / INR steps) by (field; exact HN).
      reflexivity.
    + f_equal. field. exact HN.
  - split; [exact Hlen|]. intros j Hj. apply (nth_terminal_prices self j Hj).
  - split; [exact Hlenp|]. intros j Hj. unfold payoffs.
    rewrite (nth_indep _ 0 (lattice_payoff K0 ot 0)) by (rewrite length_map; lia).
    rewrite map_nth. f_equal. apply (nth_terminal_prices self j Hj).
  - intros V n HV. split.
    + rewrite length_backward_step, HV. reflexivity.
    + intros i Hi. apply nth_backward_step. lia.
  - intros k Hk. rewrite length_for_range_backward, Hlenp. reflexivity.
  - exists (nth 0 (for_range steps (backward_step self) payoffs) 0).
    destruct (item0_singleton (for_range steps (backward_step self) payoffs))
      as [Heq Hitem].
    + rewrite length_for_range_backward, Hlenp. lia.
    + split; [exact Heq|].
      rewrite calculate_option_price_enum. exact Hitem.
Qed.

(** C10. With [N >= 1] steps and CALL or PUT, the value the backward
    induction returns is the closed-form binomial sum
    [discount ^ N * sum_(j = 0..N) C(N, j) * p ^ (N - j) * q ^ j
                                   * payoff (S * u ^ (N - j) * d ^ j)]. *)
Theorem binomial_tree_closed_form
    (S0 K0 : R) (days : Z) (r0 sigma0 : R) (steps : nat) (ot : OPTION_TYPE) :
  (1 <= steps)%nat ->
  let self := BinomialTreeModel.__init__ S0 K0 days r0 sigma0 steps in
  calculate_option_price self (PyEnum ot)
  = Return (discount self ^ steps
            * sum_f_R0 (fun j => C steps j * p self ^ (steps - j) * q self ^ j
                                 * lattice_payoff K0 ot
                                     (S0 * u self ^ (steps - j) * d self ^ j))
                       steps).
Proof.
  intros Hsteps self.
  rewrite calculate_option_price_enum.
  set (payoffs := map (lattice_payoff (K self) ot) (terminal_prices self)).
  assert (Hlenp : List.length payoffs = (steps + 1)%nat).
  { unfold payoffs. rewrite length_map. apply (length_terminal_prices self). }
  destruct (item0_singleton (for_range (N self) (backward_step self) payoffs))
    as [_ Hitem].
  { rewrite length_for_range_backward, Hlenp. simpl. lia. }
  rewrite Hitem. f_equal.
  rewrite nth_for_range_backward by (rewrite Hlenp; simpl; lia).
  rewrite psum_sum_f_R0.
  change (N self) with steps. f_equal.
  apply psum_ext. intros j Hj. unfold binomial_weight, payoffs. simpl.
  rewrite (nth_indep _ 0 (lattice_payoff (K self) ot 0))
    by (rewrite length_map, (length_terminal_prices self); simpl; lia).
  rewrite map_nth, (nth_terminal_prices self j) by (simpl; lia).
  reflexivity.
Qed.

End BinomialTreeClaims.

(** ** The Monte Carlo engine *)

Section MonteCarlo.
Context {G : np.random.BitGenerator}.
Import MonteCarloPricing.

Lemma length_standard_normal (n : nat) (g : np.random.state) :
  List.length (fst (np.random.standard_normal n g)) = n.
Proof.
  revert g. induction n as [|n IH]; intros g; simpl; [reflexivity|].
  destruct (np.random.gauss g) as [z g1].
  specialize (IH g1).
  destruct (np.random.standard_normal n g1) as [Z g2]. simpl in *. lia.
Qed.

(** The payoffs the simulation engine averages for a member of the enum. *)
Definition simulation_payoff (K : R) (ot : OPTION_TYPE) (S_T : R) : R :=
  match ot with
  | CALL_OPTION => Rmax (S_T - K) 0
  | PUT_OPTION => Rmax (K - S_T) 0
  end.

(** The instance and generator state a price query leaves behind: the lazy
    generation of the terminal prices, which comes before anything else. *)
Definition ensure_terminal_prices (self : MonteCarloPricing.t)
    (g : np.random.state) : MonteCarloPricing.t * np.random.state :=
  match S_T self with
  | Some _ => (self, g)
  | None => simulate_terminal_prices self g
  end.

Lemma S_T_simulate (self : MonteCarloPricing.t) (g : np.random.state) :
  S_T (fst (simulate_terminal_prices self g))
  = Some (map (terminal_price self) (fst (np.random.standard_normal (N self) g))).
Proof.
  unfold simulate_terminal_prices.
  destruct (np.random.standard_normal (N self) g) as [Z g']. reflexivity.
Qed.

Lemma fields_simulate (self : MonteCarloPricing.t) (g : np.random.state) :
  let self' := fst (simulate_terminal_prices self g) in
  S_0 self' = S_0 self /\ K self' = K self /\ T self' = T self
  /\ r self' = r self /\ sigma self' = sigma self /\ N self' = N self
  /\ discount_factor self' = discount_factor self
  /\ price_paths self' = price_paths self.
Proof.
  unfold simulate_terminal_prices.
  destruct (np.random.standard_normal (N self) g) as [Z g']. simpl. tauto.
Qed.

Lemma ensure_has_S_T (self : MonteCarloPricing.t) (g : np.random.state) :
  exists v, S_T (fst (ensure_terminal_prices self g)) = Some v.
Proof.
  unfold ensure_terminal_prices. destruct (S_T self) as [v|] eqn:E.
  - exists v. exact E.
  - rewrite S_T_simulate. eauto.
Qed.

(** [calculate_option_price], with the lazy generation factored out. *)
Lemma calculate_option_price_unfold (self : MonteCarloPricing.t)
    (option_type : pyobj) (g : np.random.state) :
  let self' := fst (ensure_terminal_prices self g) in
  let g' := snd (ensure_terminal_prices self g) in
  exists v, S_T self' = Some v
  /\ calculate_option_price self option_type g
     = (if py_eq option_type CALL_OPTION then
          Return (discount_factor self' * np.mean (call_payoffs self' v))
        else if py_eq option_type PUT_OPTION then
          Return (discount_factor self' * np.mean (put_payoffs self' v))
        else Raise InvalidOptionType,
        self', g').
Proof.
  intros self' g'.
  destruct (ensure_has_S_T self g) as [v Hv]. exists v. split; [exact Hv|].
  unfold calculate_option_price, get_S_T.
  unfold self', g' in *. unfold ensure_terminal_prices in *.
  destruct (S_T self) as [w|] eqn:E.
  - simpl in *. rewrite E in *. inversion Hv; subst. reflexivity.
  - destruct (simulate_terminal_prices self g) as [self1 g1]. simpl in *.
    rewrite Hv. reflexivity.
Qed.

(** The instances of the class: what the constructor returns, and what the
    methods turn an instance into.  Between two calls any other code may
    have used the process-wide generator, so each call meets an arbitrary
    generator state. *)
Inductive instance (S0 K0 : R) (days : Z) (r0 sigma0 : R) (M : nat)
    : MonteCarloPricing.t -> Prop :=
  | instance_init (g : np.random.state) :
      instance S0 K0 days r0 sigma0 M
        (fst (MonteCarloPricing.__init__ S0 K0 days r0 sigma0 M g))
  | instance_simulate_terminal_prices self (g : np.random.state) :
      instance S0 K0 days r0 sigma0 M self ->
      instance S0 K0 days r0 sigma0 M (fst (simulate_terminal_prices self g))
  | instance_calculate_option_price self option_type (g : np.random.state) :
      instance S0 K0 days r0 sigma0 M self ->
      instance S0 K0 days r0 sigma0 M
        (snd (fst (calculate_option_price self option_type g)))
  | instance_simulate_price_paths self num_time_steps (g : np.random.state) :
      instance S0 K0 days r0 sigma0 M self ->
      (1 <= num_time_steps)%nat ->
      instance S0 K0 days r0 sigma0 M
        (fst (simulate_price_paths self num_time_steps g)).

(** What every instance satisfies. *)
Definition instance_invariant (S0 K0 : R) (days : Z) (r0 sigma0 : R) (M : nat)
    (self : MonteCarloPricing.t) : Prop :=
  S_0 self = S0 /\ K self = K0 /\ T self = IZR days / 365
  /\ r self = r0 /\ sigma self = sigma0 /\ N self = M
  /\ discount_factor self = exp (- r0 * (IZR days / 365))
  /\ (S_T self = None
      \/ exists g, S_T self
           = Some (map (terminal_price self)
                       (fst (np.random.standard_normal M g)))).

Lemma terminal_price_ext (self self' : MonteCarloPricing.t) :
  S_0 self' = S_0 self -> T self' = T self -> r self' = r self ->
  sigma self' = sigma self ->
  terminal_price self' = terminal_price self.
Proof.
  intros H1 H2 H3 H4. unfold terminal_price. rewrite H1, H2, H3, H4. reflexivity.
Qed.

Lemma invariant_simulate S0 K0 days r0 sigma0 M self g :
  instance_invariant S0 K0 days r0 sigma0 M self ->
  instance_invariant S0 K0 days r0 sigma0 M (fst (simulate_terminal_prices self g)).
Proof.
  intros (H1 & H2 & H3 & H4 & H5 & H6 & H7 & _).
  destruct (fields_simulate self g) as (F1 & F2 & F3 & F4 & F5 & F6 & F7 & _).
  unfold instance_invariant.
  rewrite F1, F2, F3, F4, F5, F6, F7.
  repeat (split; [assumption|]).
  right. exists g. rewrite S_T_simulate, H6.
  rewrite (terminal_price_ext self (fst (simulate_terminal_prices self g)));
    auto.
Qed.

Lemma instance_has_invariant S0 K0 days r0 sigma0 M self :
  instance S0 K0 days r0 sigma0 M self ->
  instance_invariant S0 K0 days r0 sigma0 M self.
Proof.
  induction 1 as [g | self g _ IH | self ot g _ IH | self k g _ IH Hk].
  - unfold instance_invariant; simpl. repeat (split; [reflexivity|]). left; reflexivity.
  - apply invariant_simulate, IH.
  - destruct (calculate_option_price_unfold self ot g) as (v & _ & Heq).
    rewrite Heq. simpl. unfold ensure_terminal_prices.
    destruct (S_T self); [exact IH | apply invariant_simulate, IH].
  - destruct IH as (H1 & H2 & H3 & H4 & H5 & H6 & H7 & H8).
    unfold simulate_price_paths.
    destruct (standard_normal_matrix k (N self) g) as [Z g'].
    unfold instance_invariant; simpl. repeat (split; [assumption|]).
    exact H8.
Qed.

End MonteCarlo.

Section MonteCarloClaims.
Context {G : np.random.BitGenerator}.
Import MonteCarloPricing.

(** The terminal price of geometric Brownian motion for the variate [z]. *)
Definition gbm_terminal (S0 r0 sigma0 T z : R) : R :=
  S0 * exp ((r0 - sigma0 ^ 2 / 2) * T + sigma0 * sqrt T * z).

Lemma terminal_price_gbm S0 K0 days r0 sigma0 M self :
  instance_invariant S0 K0 days r0 sigma0 M self ->
  forall Z, map (terminal_price self) Z
            = map (gbm_terminal S0 r0 sigma0 (IZR days / 365)) Z.
Proof.
  intros (H1 & _ & H3 & H4 & H5 & _) Z. apply map_ext. intros z.
  unfold terminal_price, gbm_terminal. rewrite H1, H3, H4, H5.
  f_equal. f_equal. lra.
Qed.

Lemma payoffs_enum (self : MonteCarloPricing.t) (ot : OPTION_TYPE) (v : list R) :
  (if py_eq (PyEnum ot) CALL_OPTION then
     Return (discount_factor self * np.mean (call_payoffs self v))
   else if py_eq (PyEnum ot) PUT_OPTION then
     Return (discount_factor self * np.mean (put_payoffs self v))
   else Raise InvalidOptionType)
  = Return (discount_factor self
            * np.mean (map (simulation_payoff (K self) ot) v)).
Proof. destruct ot; reflexivity. Qed.

(** C3. For a simulation model with [M >= 1], [simulate_terminal_prices]
    stores [S * exp ((r - sigma^2 / 2) * T + sigma * sqrt T * Z)] for the
    [M] standard normal variates [Z] it draws, and [calculate_option_price]
    for CALL or PUT returns [exp (- r * T)] times the mean of the payoffs
    over the [M] terminal prices the instance holds. *)
Theorem monte_carlo_pricing
    (S0 K0 : R) (days : Z) (r0 sigma0 : R) (M : nat)
    (self : MonteCarloPricing.t) (g : np.random.state) (ot : OPTION_TYPE) :
  (1 <= M)%nat ->
  instance S0 K0 days r0 sigma0 M self ->
  let T := IZR days / 365 in
  let Z := fst (np.random.standard_normal M g) in
  let query := calculate_option_price self (PyEnum ot) g in
  (List.length Z = M
   /\ S_T (fst (simulate_terminal_prices self g))
      = Some (map (gbm_terminal S0 r0 sigma0 T) Z))
  /\ exists prices : list R,
       S_T (snd (fst query)) = Some prices
       /\ List.length prices = M
       /\ (exists g0, prices = map (gbm_terminal S0 r0 sigma0 T)
                                 (fst (np.random.standard_normal M g0)))
       /\ fst (fst query)
          = Return (exp (- r0 * T)
                    * np.mean (map (simulation_payoff K0 ot) prices)).
Proof.
  intros HM Hinst T Z query.
  pose proof (instance_has_invariant _ _ _ _ _ _ _ Hinst) as Hinv.
  split.
  - split; [apply length_standard_normal|].
    rewrite S_T_simulate.
    pose proof Hinv as (_ & _ & _ & _ & _ & H6 & _). rewrite H6.
    f_equal. apply (terminal_price_gbm S0 K0 days r0 sigma0 M). exact Hinv.
  - pose proof (instance_calculate_option_price _ _ _ _ _ _ self (PyEnum ot) g Hinst)
      as Hinst'.
    pose proof (instance_has_invariant _ _ _ _ _ _ _ Hinst') as Hinv'.
    destruct (calculate_option_price_unfold self (PyEnum ot) g) as (v & Hv & Heq).
    fold query in Heq, Hinv'. rewrite Heq in *. cbn [fst snd] in *.
    destruct Hinv' as (H1 & H2 & H3 & H4 & H5 & H6 & H7 & H8).
    exists v. split; [exact Hv|].
    destruct H8 as [H8 | [g0 H8]]; [congruence|].
    rewrite Hv in H8. injection H8 as H8.
    assert (Hg : v = map (gbm_terminal S0 r0 sigma0 T)
                       (fst (np.random.standard_normal M g0))).
    { rewrite H8. apply (terminal_price_gbm S0 K0 days r0 sigma0 M).
      unfold instance_invariant. rewrite Hv. repeat (split; [assumption|]).
      right. exists g0. rewrite H8. reflexivity. }
    split; [rewrite Hg, length_map; apply length_standard_normal|].
    split; [exists g0; exact Hg|].
    rewrite payoffs_enum, H7, H2. reflexivity.
Qed.

(** C7. A price query leaves the instance with terminal prices; it
    generates them only when the instance has none and otherwise touches
    neither the instance nor the generator; so no later query regenerates
    them, whatever the generator state, and a repeated query with the same
    option type returns the same result. *)
Theorem terminal_prices_generated_once
    (self : MonteCarloPricing.t) (option_type : pyobj) (g : np.random.state) :
  let query := calculate_option_price self option_type g in
  let self1 := snd (fst query) in
  (exists prices, S_T self1 = Some prices)
  /\ (forall prices, S_T self = Some prices -> self1 = self /\ snd query = g)
  /\ (S_T self = None -> (self1, snd query) = simulate_terminal_prices self g)
  /\ (forall option_type2 g2,
        snd (fst (calculate_option_price self1 option_type2 g2)) = self1
        /\ snd (calculate_option_price self1 option_type2 g2) = g2)
  /\ (forall g2,
        fst (fst (calculate_option_price self1 option_type g2)) = fst (fst query)).
Proof.
  intros query self1.
  destruct (calculate_option_price_unfold self option_type g) as (v & Hv & Heq).
  fold query in Heq.
  assert (Hself1 : self1 = fst (ensure_terminal_prices self g))
    by (unfold self1; rewrite Heq; reflexivity).
  assert (Hkeep : forall g2, ensure_terminal_prices self1 g2 = (self1, g2)).
  { intros g2. unfold ensure_terminal_prices at 1.
    rewrite Hself1, Hv. reflexivity. }
  split; [exists v; rewrite Hself1; exact Hv|].
  split; [|split; [|split]].
  - intros prices Hp. unfold self1. rewrite Heq. cbn [fst snd].
    unfold ensure_terminal_prices. rewrite Hp. auto.
  - intros Hnone. unfold self1. rewrite Heq. cbn [fst snd].
    unfold ensure_terminal_prices. rewrite Hnone.
    destruct (simulate_terminal_prices self g); reflexivity.
  - intros ot2 g2.
    destruct (calculate_option_price_unfold self1 ot2 g2) as (w & _ & Heq2).
    rewrite Heq2, Hkeep. auto.
  - intros g2.
    destruct (calculate_option_price_unfold self1 option_type g2) as (w & Hw & Heq2).
    rewrite Heq2, Heq. rewrite Hkeep in *. simpl in *.
    rewrite <- Hself1. rewrite <- Hself1 in Hv.
    assert (w = v) by congruence. subst w. reflexivity.
Qed.

(** C9. The constructor seeds the process-wide generator with the fixed
    seed 20: the instance and the generator state it leaves do not depend
    on the state of the generator before.  So constructing a model and then
    querying a price gives the same result in every run: the price of the
    terminal prices drawn from the seeded state. *)
Theorem seeded_pricing_reproducible
    (S0 K0 : R) (days : Z) (r0 sigma0 : R) (M : nat)
    (option_type : pyobj) (ot : OPTION_TYPE) (g1 g2 : np.random.state) :
  let run x g :=
    fst (fst (calculate_option_price
                (fst (MonteCarloPricing.__init__ S0 K0 days r0 sigma0 M g)) x
                (snd (MonteCarloPricing.__init__ S0 K0 days r0 sigma0 M g)))) in
  let T := IZR days / 365 in
  snd (MonteCarloPricing.__init__ S0 K0 days r0 sigma0 M g1) = np.random.seeded 20
  /\ MonteCarloPricing.__init__ S0 K0 days r0 sigma0 M g1
     = MonteCarloPricing.__init__ S0 K0 days r0 sigma0 M g2
  /\ run option_type g1 = run option_type g2
  /\ run (PyEnum ot) g1
     = Return (exp (- r0 * T)
               * np.mean (map (simulation_payoff K0 ot)
                            (map (gbm_terminal S0 r0 sigma0 T)
                               (fst (np.random.standard_normal M
                                       (np.random.seeded 20)))))).
Proof.
  intros run T.
  split; [reflexivity|]. split; [reflexivity|]. split; [reflexivity|].
  unfold run.
  set (self := fst (MonteCarloPricing.__init__ S0 K0 days r0 sigma0 M g1)).
  change (snd (MonteCarloPricing.__init__ S0 K0 days r0 sigma0 M g1))
    with (np.random.seeded 20).
  destruct (calculate_option_price_unfold self (PyEnum ot) (np.random.seeded 20))
    as (v & Hv & Heq).
  rewrite Heq. cbn [fst]. rewrite payoffs_enum.
  unfold ensure_terminal_prices in *. simpl S_T in *.
  rewrite S_T_simulate in Hv. injection Hv as Hv.
  destruct (fields_simulate self (np.random.seeded 20))
    as (_ & F2 & _ & _ & _ & _ & F7 & _).
  rewrite F2, F7. simpl. rewrite <- Hv.
  replace (map (terminal_price self)
             (fst (np.random.standard_normal M (np.random.seeded 20))))
    with (map (gbm_terminal S0 r0 sigma0 T)
            (fst (np.random.standard_normal M (np.random.seeded 20))));
    [reflexivity|].
  apply map_ext. intros z. unfold terminal_price, gbm_terminal. simpl.
  f_equal. f_equal. unfold T. lra.
Qed.

(** C8 (as the code has it). When a price query fails, the instance and
    the generator are what the lazy generation of the terminal prices
    leaves: untouched if the instance had terminal prices, and otherwise
    the result of [simulate_terminal_prices], which has run before the
    option type is looked at. *)
Theorem failing_query_state
    (self : MonteCarloPricing.t) (option_type : pyobj) (g : np.random.state)
    (e : exn) :
  let query := calculate_option_price self option_type g in
  fst (fst query) = Raise e ->
  e = InvalidOptionType
  /\ (forall o, option_type <> PyEnum o)
  /\ (forall prices, S_T self = Some prices ->
        snd (fst query) = self /\ snd query = g)
  /\ (S_T self = None ->
        (snd (fst query), snd query) = simulate_terminal_prices self g
        /\ exists prices, S_T (snd (fst query)) = Some prices
                          /\ List.length prices = N self).
Proof.
  intros query Hfail.
  destruct (calculate_option_price_unfold self option_type g) as (v & Hv & Heq).
  fold query in Heq. rewrite Heq in *. simpl in *.
  assert (Hot : py_eq option_type CALL_OPTION = false
                /\ py_eq option_type PUT_OPTION = false).
  { destruct (py_eq option_type CALL_OPTION); [discriminate|].
    destruct (py_eq option_type PUT_OPTION); [discriminate|]. auto. }
  destruct Hot as [Hc Hp]. rewrite Hc, Hp in Hfail.
  split; [congruence|]. split.
  - intros [|] ->; discriminate.
  - unfold ensure_terminal_prices in *. split.
    + intros prices Hpr. rewrite Hpr. auto.
    + intros Hnone. rewrite Hnone in *.
      split; [destruct (simulate_terminal_prices self g); reflexivity|].
      exists v. split; [exact Hv|].
      rewrite S_T_simulate in Hv. injection Hv as <-.
      rewrite length_map. apply length_standard_normal.
Qed.

End MonteCarloClaims.

(** ** The standard normal distribution function *)

Definition gaussian_kernel (x : R) : R := exp (- (x ^ 2 / 2)).

Definition limit_at_minus_infinity (f : R -> R) (l : R) : Prop :=
  forall eps, 0 < eps -> exists M, forall x, x < M -> Rabs (f x - l) < eps.

Definition limit_at_plus_infinity (f : R -> R) (l : R) : Prop :=
  forall eps, 0 < eps -> exists M, forall x, M < x -> Rabs (f x - l) < eps.

(** What the development asks of [scipy.stats.norm.cdf]: it is the
    distribution function whose density is proportional to the Gaussian
    kernel, that is, a primitive of [c * exp (- x^2 / 2)] that goes from 0
    at minus infinity to 1 at plus infinity.  The two limits leave one value
    for the constant, [c = 1 / sqrt (2 * PI)], and one function. *)
Record standard_normal_cdf (Phi : R -> R) : Prop := {
  cdf_density :
    exists c, 0 < c /\ forall x, derivable_pt_lim Phi x (c * gaussian_kernel x);
  cdf_minus_infinity : limit_at_minus_infinity Phi 0;
  cdf_plus_infinity : limit_at_plus_infinity Phi 1
}.

Section NormalCdf.

Lemma gaussian_kernel_pos (x : R) : 0 < gaussian_kernel x.
Proof. apply exp_pos. Qed.

Lemma gaussian_kernel_even (x : R) : gaussian_kernel (- x) = gaussian_kernel x.
Proof. unfold gaussian_kernel. apply f_equal. field. Qed.

Lemma gaussian_kernel_shift (x s : R) :
  gaussian_kernel (x - s) = gaussian_kernel x * exp (s * x - s ^ 2 / 2).
Proof.
  unfold gaussian_kernel. rewrite <- exp_plus. apply f_equal. field.
Qed.

Lemma derivable_pt_lim_affine (a b x : R) :
  derivable_pt_lim (fun y => a * y + b) x a.
Proof.
  intros eps Heps. exists (mkposreal 1 Rlt_0_1). intros h Hh _.
  replace ((a * (x + h) + b - (a * x + b)) / h - a) with 0 by (field; exact Hh).
  rewrite Rabs_R0. exact Heps.
Qed.

Variable Phi : R -> R.
Hypothesis HPhi : standard_normal_cdf Phi.

Lemma cdf_increasing (x y : R) : x <= y -> Phi x <= Phi y.
Proof.
  destruct (cdf_density Phi HPhi) as (c & Hc & Hd).
  set (pr := (fun z => exist (fun l => derivable_pt_abs Phi z l) _ (Hd z))
             : derivable Phi).
  apply (nonneg_derivative_1 Phi pr).
  intros z. simpl. pose proof (gaussian_kernel_pos z). nra.
Qed.

Lemma cdf_nonneg (x : R) : 0 <= Phi x.
Proof.
  destruct (Rle_or_lt 0 (Phi x)) as [H|H]; [exact H|exfalso].
  destruct (cdf_minus_infinity Phi HPhi (- Phi x)) as [M HM]; [lra|].
  assert (Hy : Rmin x M - 1 < M) by (pose proof (Rmin_r x M); lra).
  specialize (HM _ Hy).
  assert (Hle : Phi (Rmin x M - 1) <= Phi x)
    by (apply cdf_increasing; pose proof (Rmin_l x M); lra).
  rewrite Rminus_0_r in HM. apply Rabs_def2 in HM. lra.
Qed.

Lemma cdf_symmetry (x : R) : Phi (- x) = 1 - Phi x.
Proof.
  destruct (cdf_density Phi HPhi) as (c & Hc & Hd).
  set (g := fun z => Phi z + Phi (- z)).
  assert (Hg : forall z, derivable_pt_lim g z 0).
  { intros z.
    replace 0 with (c * gaussian_kernel z + c * gaussian_kernel (- z) * (-1))
      by (rewrite gaussian_kernel_even; ring).
    apply (derivable_pt_lim_plus Phi (comp Phi (fun y => - y))); [apply Hd|].
    apply (derivable_pt_lim_comp (fun y => - y) Phi); [|apply Hd].
    apply (derivable_pt_lim_ext (fun y => -1 * y + 0)); [intros; ring|].
    apply derivable_pt_lim_affine. }
  set (pr := (fun z => exist (fun l => derivable_pt_abs g z l) _ (Hg z))
             : derivable g).
  assert (Hconst : constant g)
    by (apply (null_derivative_1 g pr); intros; reflexivity).
  assert (H1 : g x = 1).
  { apply cond_eq. intros eps Heps.
    destruct (cdf_minus_infinity Phi HPhi (eps / 2)) as [M1 HM1]; [lra|].
    destruct (cdf_plus_infinity Phi HPhi (eps / 2)) as [M2 HM2]; [lra|].
    set (y := Rmax M2 (- M1) + 1).
    assert (Hy2 : M2 < y) by (unfold y; pose proof (Rmax_l M2 (- M1)); lra).
    assert (Hy1 : - y < M1) by (unfold y; pose proof (Rmax_r M2 (- M1)); lra).
    rewrite (Hconst x y). unfold g.
    specialize (HM1 _ Hy1). specialize (HM2 _ Hy2).
    rewrite Rminus_0_r in HM1.
    replace (Phi y + Phi (- y) - 1) with ((Phi y - 1) + Phi (- y)) by ring.
    eapply Rle_lt_trans; [apply Rabs_triang|]. lra. }
  unfold g in H1. lra.
Qed.

(** The inequality behind the sign of the Black-Scholes prices: shifting
    the argument down by [s >= 0] costs at most the factor
    [exp (s * x - s^2 / 2)]. *)
Lemma cdf_shift_bound (x s : R) :
  0 <= s -> Phi (x - s) <= exp (s * x - s ^ 2 / 2) * Phi x.
Proof.
  intros Hs.
  destruct (cdf_density Phi HPhi) as (c & Hc & Hd).
  set (E := fun z => exp (s * z + - (s ^ 2 / 2))).
  set (k := fun z => E z * Phi z - Phi (z + - s)).
  assert (HE : forall z, derivable_pt_lim E z (E z * s)).
  { intros z.
    apply (derivable_pt_lim_comp (fun y => s * y + - (s ^ 2 / 2)) exp).
    - apply derivable_pt_lim_affine.
    - apply derivable_pt_lim_exp. }
  assert (Hk : forall z, derivable_pt_lim k z (s * E z * Phi z)).
  { intros z.
    replace (s * E z * Phi z)
      with ((E z * s * Phi z + E z * (c * gaussian_kernel z))
            - c * gaussian_kernel (z + - s) * 1).
    - apply (derivable_pt_lim_minus (E * Phi)%F (comp Phi (fun y => y + - s))).
      + apply derivable_pt_lim_mult; [apply HE | apply Hd].
      + apply (derivable_pt_lim_comp (fun y => y + - s) Phi); [|apply Hd].
        apply (derivable_pt_lim_ext (fun y => 1 * y + - s)); [intros; ring|].
        apply derivable_pt_lim_affine.
    - replace (z + - s) with (z - s) by ring.
      rewrite gaussian_kernel_shift. unfold E.
      replace (s * z + - (s ^ 2 / 2)) with (s * z - s ^ 2 / 2) by ring. ring. }
  set (pr := (fun z => exist (fun l => derivable_pt_abs k z l) _ (Hk z))
             : derivable k).
  assert (Hincr : increasing k).
  { apply (nonneg_derivative_1 k pr). intros z.
    change (0 <= s * E z * Phi z).
    apply Rmult_le_pos; [apply Rmult_le_pos; [exact Hs|] | apply cdf_nonneg].
    left. apply exp_pos. }
  assert (Hkx : 0 <= k x).
  { destruct (Rle_or_lt 0 (k x)) as [H|H]; [exact H|exfalso].
    destruct (cdf_minus_infinity Phi HPhi (- k x)) as [M HM]; [lra|].
    set (y := Rmin x M - 1).
    assert (Hyx : y <= x) by (unfold y; pose proof (Rmin_l x M); lra).
    assert (HyM : y + - s < M) by (unfold y; pose proof (Rmin_r x M); lra).
    specialize (HM _ HyM). rewrite Rminus_0_r in HM. apply Rabs_def2 in HM.
    pose proof (Hincr y x Hyx) as Hle.
    assert (0 <= E y * Phi y).
    { apply Rmult_le_pos; [left; apply exp_pos | apply cdf_nonneg]. }
    unfold k at 1 in Hle. lra. }
  unfold k, E in Hkx.
  replace (x + - s) with (x - s) in Hkx by ring.
  replace (s * x + - (s ^ 2 / 2)) with (s * x - s ^ 2 / 2) in Hkx by ring.
  lra.
Qed.

End NormalCdf.

(** ** The Black-Scholes engine *)

Section BlackScholes.

Variable Phi : R -> R.

(** C1. A Black-Scholes model built with [S > 0], [K > 0], [T > 0] and
    [sigma > 0], where [T = days_to_maturity / 365], holds
    [d1 = (ln (S / K) + (r + sigma^2 / 2) * T) / (sigma * sqrt T)] and
    [d2 = d1 - sigma * sqrt T], and [calculate_option_price] returns
    [S * Phi d1 - K * exp (- r * T) * Phi d2] for CALL and
    [K * exp (- r * T) * Phi (- d2) - S * Phi (- d1)] for PUT, where [Phi]
    is [norm.cdf]. *)
Theorem black_scholes_formula (S0 K0 : R) (days : Z) (r0 sigma0 : R) :
  let T := IZR days / 365 in
  let self := BlackScholesModel.__init__ S0 K0 days r0 sigma0 in
  0 < S0 -> 0 < K0 -> 0 < T -> 0 < sigma0 ->
  (BlackScholesModel.T self = T
   /\ BlackScholesModel.d1 self
      = (ln (S0 / K0) + (r0 + sigma0 ^ 2 / 2) * T) / (sigma0 * sqrt T)
   /\ BlackScholesModel.d2 self = BlackScholesModel.d1 self - sigma0 * sqrt T)
  /\ BlackScholesModel.calculate_option_price Phi self (PyEnum CALL_OPTION)
     = Return (S0 * Phi (BlackScholesModel.d1 self)
               - K0 * exp (- r0 * T) * Phi (BlackScholesModel.d2 self))
  /\ BlackScholesModel.calculate_option_price Phi self (PyEnum PUT_OPTION)
     = Return (K0 * exp (- r0 * T) * Phi (- BlackScholesModel.d2 self)
               - S0 * Phi (- BlackScholesModel.d1 self)).
Proof.
  intros T self HS HK HT Hsigma.
  split; [|split; reflexivity].
  split; [reflexivity|]. split; [|reflexivity].
  unfold self, BlackScholesModel.__init__, BlackScholesModel._compute_d1_d2.
  simpl. fold T. f_equal. f_equal. f_equal. lra.
Qed.

(** The identity that ties [d1] to the forward moneyness. *)
Lemma d1_times_volatility (S0 K0 : R) (days : Z) (r0 sigma0 : R) :
  let T := IZR days / 365 in
  let self := BlackScholesModel.__init__ S0 K0 days r0 sigma0 in
  let s := sigma0 * sqrt T in
  0 < T -> 0 < sigma0 ->
  0 < s
  /\ s * BlackScholesModel.d1 self - s ^ 2 / 2 = ln (S0 / K0) + r0 * T
  /\ BlackScholesModel.d2 self = BlackScholesModel.d1 self - s.
Proof.
  intros T self s HT Hsigma.
  assert (Hsqrt : 0 < sqrt T) by (apply sqrt_lt_R0; exact HT).
  assert (Hs : 0 < s) by (apply Rmult_lt_0_compat; assumption).
  split; [exact Hs|]. split; [|reflexivity].
  assert (Hs2 : s ^ 2 = sigma0 ^ 2 * T).
  { unfold s. replace ((sigma0 * sqrt T) ^ 2)
      with (sigma0 ^ 2 * (sqrt T * sqrt T)) by ring.
    rewrite sqrt_sqrt by lra. reflexivity. }
  assert (Hd1 : BlackScholesModel.d1 self
                = (ln (S0 / K0) + (r0 + 0.5 * sigma0 ^ 2) * T) / s)
    by reflexivity.
  rewrite Hd1.
  replace (s * ((ln (S0 / K0) + (r0 + 0.5 * sigma0 ^ 2) * T) / s))
    with (ln (S0 / K0) + (r0 + 0.5 * sigma0 ^ 2) * T) by (field; lra).
  rewrite Hs2. lra.
Qed.

Hypothesis HPhi : standard_normal_cdf Phi.

Lemma black_scholes_call_nonneg (S0 K0 : R) (days : Z) (r0 sigma0 : R) :
  let T := IZR days / 365 in
  let self := BlackScholesModel.__init__ S0 K0 days r0 sigma0 in
  0 < S0 -> 0 < K0 -> 0 < T -> 0 < sigma0 ->
  0 <= S0 * Phi (BlackScholesModel.d1 self)
       - K0 * exp (- r0 * T) * Phi (BlackScholesModel.d2 self).
Proof.
  intros T self HS HK HT Hsigma.
  destruct (d1_times_volatility S0 K0 days r0 sigma0 HT Hsigma) as (Hs & Hd1 & Hd2).
  fold T self in Hs, Hd1, Hd2.
  set (s := sigma0 * sqrt T) in *. set (d1 := BlackScholesModel.d1 self) in *.
  rewrite Hd2.
  pose proof (cdf_shift_bound Phi HPhi d1 s (Rlt_le _ _ Hs)) as Hb.
  rewrite Hd1, exp_plus, exp_ln in Hb by (apply Rdiv_lt_0_compat; assumption).
  assert (He : exp (- r0 * T) * exp (r0 * T) = 1).
  { rewrite <- exp_plus. replace (- r0 * T + r0 * T) with 0 by ring. apply exp_0. }
  assert (Hd : 0 < K0 * exp (- r0 * T))
    by (apply Rmult_lt_0_compat; [exact HK | apply exp_pos]).
  apply (Rmult_le_compat_l _ _ _ (Rlt_le _ _ Hd)) in Hb.
  replace (K0 * exp (- r0 * T) * (S0 / K0 * exp (r0 * T) * Phi d1))
    with (S0 * Phi d1 * (exp (- r0 * T) * exp (r0 * T))) in Hb by (field; lra).
  rewrite He in Hb. lra.
Qed.

Lemma black_scholes_put_nonneg (S0 K0 : R) (days : Z) (r0 sigma0 : R) :
  let T := IZR days / 365 in
  let self := BlackScholesModel.__init__ S0 K0 days r0 sigma0 in
  0 < S0 -> 0 < K0 -> 0 < T -> 0 < sigma0 ->
  0 <= K0 * exp (- r0 * T) * Phi (- BlackScholesModel.d2 self)
       - S0 * Phi (- BlackScholesModel.d1 self).
Proof.
  intros T self HS HK HT Hsigma.
  destruct (d1_times_volatility S0 K0 days r0 sigma0 HT Hsigma) as (Hs & Hd1 & Hd2).
  fold T self in Hs, Hd1, Hd2.
  set (s := sigma0 * sqrt T) in *. set (d1 := BlackScholesModel.d1 self) in *.
  rewrite Hd2.
  pose proof (cdf_shift_bound Phi HPhi (- (d1 - s)) s (Rlt_le _ _ Hs)) as Hb.
  replace (- (d1 - s) - s) with (- d1) in Hb by ring.
  replace (s * - (d1 - s) - s ^ 2 / 2) with (- (s * d1 - s ^ 2 / 2)) in Hb by field.
  rewrite Hd1 in Hb.
  replace (- (ln (S0 / K0) + r0 * T)) with (- ln (S0 / K0) + - r0 * T) in Hb by ring.
  rewrite exp_plus, exp_Ropp, exp_ln in Hb by (apply Rdiv_lt_0_compat; assumption).
  apply (Rmult_le_compat_l _ _ _ (Rlt_le _ _ HS)) in Hb.
  replace (S0 * (/ (S0 / K0) * exp (- r0 * T) * Phi (- (d1 - s))))
    with (K0 * exp (- r0 * T) * Phi (- (d1 - s))) in Hb by (field; lra).
  lra.
Qed.

(** C4. Put-call parity: for a Black-Scholes model built with [S > 0],
    [K > 0], [T > 0] and [sigma > 0], the CALL price minus the PUT price is
    [S - K * exp (- r * T)]. *)
Theorem put_call_parity (S0 K0 : R) (days : Z) (r0 sigma0 : R) :
  let T := IZR days / 365 in
  let self := BlackScholesModel.__init__ S0 K0 days r0 sigma0 in
  0 < S0 -> 0 < K0 -> 0 < T -> 0 < sigma0 ->
  exists call put,
    BlackScholesModel.calculate_option_price Phi self (PyEnum CALL_OPTION)
    = Return call
    /\ BlackScholesModel.calculate_option_price Phi self (PyEnum PUT_OPTION)
       = Return put
    /\ call - put = S0 - K0 * exp (- r0 * T).
Proof.
  intros T self HS HK HT Hsigma.
  eexists. eexists. split; [reflexivity|]. split; [reflexivity|].
  rewrite !(cdf_symmetry Phi HPhi).
  change (BlackScholesModel.S self) with S0.
  change (BlackScholesModel.K self) with K0.
  change (BlackScholesModel.r self) with r0.
  change (BlackScholesModel.T self) with T.
  ring.
Qed.

End BlackScholes.

(** ** Signs of the lattice and simulation prices *)

Section Signs.

Lemma lattice_payoff_nonneg (K0 : R) (ot : OPTION_TYPE) (s : R) :
  0 <= lattice_payoff K0 ot s.
Proof. destruct ot; simpl; apply Rmax_r. Qed.

Lemma simulation_payoff_nonneg (K0 : R) (ot : OPTION_TYPE) (s : R) :
  0 <= simulation_payoff K0 ot s.
Proof. destruct ot; simpl; apply Rmax_r. Qed.

(** A backward step with probabilities in [0, 1] keeps values
    non-negative. *)
Lemma backward_step_nonneg (self : BinomialTreeModel.t) (V : list R) :
  0 <= BinomialTreeModel.discount self ->
  0 <= BinomialTreeModel.p self -> 0 <= BinomialTreeModel.q self ->
  (forall i, (i < List.length V)%nat -> 0 <= nth i V 0) ->
  forall i, (i < List.length (BinomialTreeModel.backward_step self V))%nat ->
            0 <= nth i (BinomialTreeModel.backward_step self V) 0.
Proof.
  intros Hd Hp Hq HV i Hi. rewrite length_backward_step in Hi.
  rewrite nth_backward_step by lia.
  assert (0 <= nth i V 0) by (apply HV; lia).
  assert (0 <= nth (S i) V 0) by (apply HV; lia).
  apply Rmult_le_pos; [exact Hd|].
  apply Rplus_le_le_0_compat; apply Rmult_le_pos; assumption.
Qed.

Lemma for_range_backward_nonneg (self : BinomialTreeModel.t) (k : nat) :
  0 <= BinomialTreeModel.discount self ->
  0 <= BinomialTreeModel.p self -> 0 <= BinomialTreeModel.q self ->
  forall V,
    (forall i, (i < List.length V)%nat -> 0 <= nth i V 0) ->
    forall i,
      (i < List.length (for_range k (BinomialTreeModel.backward_step self) V))%nat ->
      0 <= nth i (for_range k (BinomialTreeModel.backward_step self) V) 0.
Proof.
  intros Hd Hp Hq. induction k as [|k IH]; intros V HV i Hi; simpl in *.
  - apply HV, Hi.
  - apply IH; [|exact Hi]. apply backward_step_nonneg; assumption.
Qed.

Lemma lattice_price_nonneg
    (S0 K0 : R) (days : Z) (r0 sigma0 : R) (steps : nat) (ot : OPTION_TYPE) :
  let self := BinomialTreeModel.__init__ S0 K0 days r0 sigma0 steps in
  0 <= BinomialTreeModel.p self <= 1 ->
  exists v,
    BinomialTreeModel.calculate_option_price self (PyEnum ot) = Return v
    /\ 0 <= v.
Proof.
  intros self [Hp0 Hp1].
  rewrite calculate_option_price_enum.
  set (payoffs := map (lattice_payoff (BinomialTreeModel.K self) ot)
                      (BinomialTreeModel.terminal_prices self)).
  set (V := for_range (BinomialTreeModel.N self)
              (BinomialTreeModel.backward_step self) payoffs).
  assert (Hlen : List.length V = 1%nat).
  { unfold V, payoffs.
    rewrite length_for_range_backward, length_map, length_terminal_prices. lia. }
  destruct (item0_singleton V Hlen) as [_ Hitem].
  exists (nth 0 V 0). split; [exact Hitem|].
  apply for_range_backward_nonneg.
  - left. apply exp_pos.
  - exact Hp0.
  - change (BinomialTreeModel.q self) with (1 - BinomialTreeModel.p self). lra.
  - intros i Hi. unfold payoffs.
    rewrite (nth_indep _ 0 (lattice_payoff (BinomialTreeModel.K self) ot 0))
      by exact Hi.
    rewrite map_nth. apply lattice_payoff_nonneg.
  - fold V. lia.
Qed.

Lemma mean_nonneg (V : list R) :
  (forall x, In x V -> 0 <= x) -> (1 <= List.length V)%nat -> 0 <= np.mean V.
Proof.
  intros HV Hlen. unfold np.mean.
  apply Rmult_le_pos; [apply sum_nonneg, HV|].
  left. apply Rinv_0_lt_compat, lt_0_INR. lia.
Qed.

End Signs.

(** ** Claims on the three engines together *)

Section Engines.
Context {G : np.random.BitGenerator}.
Variable Phi : R -> R.

Lemma py_eq_true (x : pyobj) (o : OPTION_TYPE) :
  py_eq x o = true <-> x = PyEnum o.
Proof.
  split.
  - destruct x as [[|]| | |], o; simpl; intros; congruence.
  - intros ->. destruct o; reflexivity.
Qed.

Lemma invalid_option_type_cases (x : pyobj) :
  (forall o, x <> PyEnum o)
  <-> py_eq x CALL_OPTION = false /\ py_eq x PUT_OPTION = false.
Proof.
  split.
  - intros H. split.
    + destruct (py_eq x CALL_OPTION) eqn:E; [|reflexivity].
      apply py_eq_true in E. destruct (H _ E).
    + destruct (py_eq x PUT_OPTION) eqn:E; [|reflexivity].
      apply py_eq_true in E. destruct (H _ E).
  - intros [Hc Hp] o ->. destruct o; simpl in *; discriminate.
Qed.

(** C5. In each of the three engines [calculate_option_price] fails with
    the invalid-option-type error exactly when its argument is neither
    [OPTION_TYPE.CALL_OPTION] nor [OPTION_TYPE.PUT_OPTION]. *)
Theorem invalid_option_type_iff
    (analytic : BlackScholesModel.t) (lattice : BinomialTreeModel.t)
    (simulation : MonteCarloPricing.t) (g : np.random.state)
    (option_type : pyobj) :
  (BlackScholesModel.calculate_option_price Phi analytic option_type
   = Raise InvalidOptionType
   <-> forall o, option_type <> PyEnum o)
  /\ (BinomialTreeModel.calculate_option_price lattice option_type
      = Raise InvalidOptionType
      <-> forall o, option_type <> PyEnum o)
  /\ (fst (fst (MonteCarloPricing.calculate_option_price simulation option_type g))
      = Raise InvalidOptionType
      <-> forall o, option_type <> PyEnum o).
Proof.
  rewrite !invalid_option_type_cases.
  split; [|split].
  - unfold BlackScholesModel.calculate_option_price.
    destruct (py_eq option_type CALL_OPTION), (py_eq option_type PUT_OPTION);
      split; intros H; try discriminate; try (destruct H; discriminate); auto.
  - unfold BinomialTreeModel.calculate_option_price, np.item0.
    destruct (py_eq option_type CALL_OPTION), (py_eq option_type PUT_OPTION);
      try (split; [|intros [? ?]; discriminate]);
      try (destruct (for_range _ _ _); discriminate).
    split; auto.
  - destruct (calculate_option_price_unfold simulation option_type g)
      as (v & _ & Heq).
    rewrite Heq. cbn [fst].
    destruct (py_eq option_type CALL_OPTION), (py_eq option_type PUT_OPTION);
      split; intros H; try discriminate; try (destruct H; discriminate); auto.
Qed.

Hypothesis HPhi : standard_normal_cdf Phi.

(** C6. With [S > 0], [K > 0], [T > 0] and [sigma > 0], the price each
    engine returns for CALL or PUT is a non-negative real number: the
    Black-Scholes price, the binomial-tree price when the up-probability
    lies in [0, 1], and the Monte Carlo price of any instance with
    [M >= 1] simulations. *)
Theorem prices_nonnegative
    (S0 K0 : R) (days : Z) (r0 sigma0 : R) (steps M : nat)
    (simulation : MonteCarloPricing.t) (g : np.random.state)
    (ot : OPTION_TYPE) :
  let T := IZR days / 365 in
  let analytic := BlackScholesModel.__init__ S0 K0 days r0 sigma0 in
  let lattice := BinomialTreeModel.__init__ S0 K0 days r0 sigma0 steps in
  0 < S0 -> 0 < K0 -> 0 < T -> 0 < sigma0 ->
  (1 <= steps)%nat -> 0 <= BinomialTreeModel.p lattice <= 1 ->
  (1 <= M)%nat -> instance S0 K0 days r0 sigma0 M simulation ->
  (exists v,
     BlackScholesModel.calculate_option_price Phi analytic (PyEnum ot) = Return v
     /\ 0 <= v)
  /\ (exists v,
        BinomialTreeModel.calculate_option_price lattice (PyEnum ot) = Return v
        /\ 0 <= v)
  /\ (exists v,
        fst (fst (MonteCarloPricing.calculate_option_price simulation (PyEnum ot) g))
        = Return v
        /\ 0 <= v).
Proof.
  intros T analytic lattice HS HK HT Hsigma Hsteps Hp HM Hinst.
  split; [|split].
  - destruct ot; eexists; (split; [reflexivity|]).
    + apply (black_scholes_call_nonneg Phi HPhi S0 K0 days r0 sigma0); assumption.
    + apply (black_scholes_put_nonneg Phi HPhi S0 K0 days r0 sigma0); assumption.
  - apply lattice_price_nonneg. exact Hp.
  - pose proof (instance_calculate_option_price _ _ _ _ _ _ simulation
                  (PyEnum ot) g Hinst) as Hinst'.
    apply instance_has_invariant in Hinst'.
    destruct (calculate_option_price_unfold simulation (PyEnum ot) g)
      as (v & Hv & Heq).
    rewrite Heq in *. cbn [fst snd] in *. rewrite payoffs_enum.
    eexists. split; [reflexivity|].
    destruct Hinst' as (_ & _ & _ & _ & _ & _ & H7 & H8).
    rewrite H7. apply Rmult_le_pos; [left; apply exp_pos|].
    apply mean_nonneg.
    + intros x Hx. apply in_map_iff in Hx. destruct Hx as (s & <- & _).
      apply simulation_payoff_nonneg.
    + destruct H8 as [H8 | [g0 H8]]; [congruence|].
      rewrite Hv in H8. injection H8 as ->.
      rewrite !length_map, length_standard_normal. exact HM.
Qed.

End Engines.

(** ** A function that meets [standard_normal_cdf]

    The integral of the Gaussian kernel, normalised by its total mass.  It
    shows that the hypotheses on [norm.cdf] can be met, and it is the
    function they describe. *)

Section GaussianIntegral.

Lemma continuity_gaussian_kernel : continuity gaussian_kernel.
Proof. unfold gaussian_kernel. reg. Qed.

Lemma gaussian_integrable (a b : R) : Riemann_integrable gaussian_kernel a b.
Proof.
  destruct (Rle_dec a b) as [Hab|Hab].
  - apply continuity_implies_RiemannInt; [exact Hab|].
    intros x _. apply continuity_gaussian_kernel.
  - apply RiemannInt_P1, continuity_implies_RiemannInt; [lra|].
    intros x _. apply continuity_gaussian_kernel.
Qed.

End GaussianIntegral.

(** The integral of the Gaussian kernel from [0] to [x]. *)
Definition gaussian_integral (x : R) : R := RiemannInt (gaussian_integrable 0 x).

Section GaussianIntegralFacts.

Lemma gaussian_integral_0 : gaussian_integral 0 = 0.
Proof. unfold gaussian_integral. apply RiemannInt_P9. Qed.

Lemma primitive_RiemannInt (f : R -> R) (a b : R) (h : a <= b)
    (C0 : forall x, a <= x <= b -> continuity_pt f x) (z : R)
    (pr : Riemann_integrable f a z) :
  a <= z <= b -> primitive h (FTC_P1 h C0) z = RiemannInt pr.
Proof.
  intros [Haz Hzb]. unfold primitive.
  destruct (Rle_dec a z) as [?|n]; [|destruct (n Haz)].
  destruct (Rle_dec z b) as [?|n]; [|destruct (n Hzb)].
  apply RiemannInt_P5.
Qed.

Lemma derivable_pt_lim_gaussian_integral (x : R) :
  derivable_pt_lim gaussian_integral x (gaussian_kernel x).
Proof.
  set (a := Rmin 0 x - 1). set (b := Rmax 0 x + 1).
  assert (Ha0 : a < 0) by (unfold a; pose proof (Rmin_l 0 x); lra).
  assert (Hax : a < x) by (unfold a; pose proof (Rmin_r 0 x); lra).
  assert (H0b : 0 < b) by (unfold b; pose proof (Rmax_l 0 x); lra).
  assert (Hxb : x < b) by (unfold b; pose proof (Rmax_r 0 x); lra).
  assert (h : a <= b) by lra.
  assert (C0 : forall y, a <= y <= b -> continuity_pt gaussian_kernel y)
    by (intros; apply continuity_gaussian_kernel).
  set (P := primitive h (FTC_P1 h C0)).
  apply (derivable_pt_lim_locally_ext (fun z => P z - P 0) gaussian_integral x a b).
  - lra.
  - intros z Hz. unfold P.
    rewrite (primitive_RiemannInt _ a b h C0 z (gaussian_integrable a z)) by lra.
    rewrite (primitive_RiemannInt _ a b h C0 0 (gaussian_integrable a 0)) by lra.
    unfold gaussian_integral.
    rewrite <- (RiemannInt_P26 (gaussian_integrable a 0) (gaussian_integrable 0 z)
                  (gaussian_integrable a z)).
    ring.
  - replace (gaussian_kernel x) with (gaussian_kernel x - 0) by ring.
    apply (derivable_pt_lim_minus P (fun _ => P 0)).
    + apply RiemannInt_P28. lra.
    + apply derivable_pt_lim_const.
Qed.

Lemma derivable_gaussian_integral : derivable gaussian_integral.
Proof.
  intros x. exists (gaussian_kernel x). apply derivable_pt_lim_gaussian_integral.
Qed.

Lemma gaussian_integral_increasing (x y : R) :
  x <= y -> gaussian_integral x <= gaussian_integral y.
Proof.
  apply (nonneg_derivative_1 gaussian_integral derivable_gaussian_integral).
  intros z.
  rewrite (derive_pt_eq_0 _ _ _ _ (derivable_pt_lim_gaussian_integral z)).
  left. apply gaussian_kernel_pos.
Qed.

Lemma gaussian_integral_strictly_increasing (x y : R) :
  x < y -> gaussian_integral x < gaussian_integral y.
Proof.
  apply (positive_derivative gaussian_integral derivable_gaussian_integral).
  intros z.
  rewrite (derive_pt_eq_0 _ _ _ _ (derivable_pt_lim_gaussian_integral z)).
  apply gaussian_kernel_pos.
Qed.

Lemma gaussian_integral_odd (x : R) :
  gaussian_integral (- x) = - gaussian_integral x.
Proof.
  set (g := fun z => gaussian_integral z + gaussian_integral (- z)).
  assert (Hg : forall z, derivable_pt_lim g z 0).
  { intros z.
    replace 0 with (gaussian_kernel z + gaussian_kernel (- z) * (-1))
      by (rewrite gaussian_kernel_even; ring).
    apply (derivable_pt_lim_plus gaussian_integral
             (comp gaussian_integral (fun y => - y)));
      [apply derivable_pt_lim_gaussian_integral|].
    apply (derivable_pt_lim_comp (fun y => - y) gaussian_integral);
      [|apply derivable_pt_lim_gaussian_integral].
    apply (derivable_pt_lim_ext (fun y => -1 * y + 0)); [intros; ring|].
    apply derivable_pt_lim_affine. }
  set (pr := (fun z => exist (fun l => derivable_pt_abs g z l) _ (Hg z))
             : derivable g).
  assert (Hconst : constant g)
    by (apply (null_derivative_1 g pr); intros; reflexivity).
  pose proof (Hconst x 0) as H. unfold g in H.
  rewrite Ropp_0, gaussian_integral_0 in H. lra.
Qed.

(** The kernel lies below [exp (1/2 - x)], whose integral is bounded. *)
Lemma gaussian_integral_bounded (x : R) : gaussian_integral x <= exp (1 / 2).
Proof.
  set (B := fun z => exp (1 / 2) - exp (-1 * z + 1 / 2) - gaussian_integral z).
  assert (HB : forall z, derivable_pt_lim B z
                 (exp (-1 * z + 1 / 2) - gaussian_kernel z)).
  { intros z.
    replace (exp (-1 * z + 1 / 2) - gaussian_kernel z)
      with (0 - exp (-1 * z + 1 / 2) * -1 - gaussian_kernel z) by ring.
    apply (derivable_pt_lim_minus
             (fun y => exp (1 / 2) - exp (-1 * y + 1 / 2)) gaussian_integral);
      [|apply derivable_pt_lim_gaussian_integral].
    apply (derivable_pt_lim_minus (fun _ => exp (1 / 2))
             (comp exp (fun y => -1 * y + 1 / 2)));
      [apply derivable_pt_lim_const|].
    apply (derivable_pt_lim_comp (fun y => -1 * y + 1 / 2) exp);
      [apply derivable_pt_lim_affine | apply derivable_pt_lim_exp]. }
  set (pr := (fun z => exist (fun l => derivable_pt_abs B z l) _ (HB z))
             : derivable B).
  assert (Hincr : increasing B).
  { apply (nonneg_derivative_1 B pr). intros z.
    change (0 <= exp (-1 * z + 1 / 2) - gaussian_kernel z).
    unfold gaussian_kernel.
    assert (- (z ^ 2 / 2) <= -1 * z + 1 / 2).
    { pose proof (pow2_ge_0 (z - 1)) as Hsq.
      replace ((z - 1) ^ 2) with (z ^ 2 - 2 * z + 1) in Hsq by ring. lra. }
    destruct H as [H|H]; [apply exp_increasing in H; lra | rewrite H; lra]. }
  assert (HB0 : B 0 = 0).
  { unfold B. rewrite gaussian_integral_0.
    replace (-1 * 0 + 1 / 2) with (1 / 2) by ring. ring. }
  destruct (Rle_or_lt 0 x) as [Hx|Hx].
  - pose proof (Hincr 0 x Hx) as H. rewrite HB0 in H. unfold B in H.
    pose proof (exp_pos (-1 * x + 1 / 2)). lra.
  - pose proof (gaussian_integral_increasing x 0 (Rlt_le _ _ Hx)) as H.
    rewrite gaussian_integral_0 in H. pose proof (exp_pos (1 / 2)). lra.
Qed.

End GaussianIntegralFacts.

(** The values the integral takes; they are bounded, and their least upper
    bound is the integral of the kernel over the positive half-line. *)
Definition gaussian_integral_values (y : R) : Prop :=
  exists x, y = gaussian_integral x.

Section HalfMass.

Lemma gaussian_integral_values_bound : bound gaussian_integral_values.
Proof.
  exists (exp (1 / 2)). intros y [x ->]. apply gaussian_integral_bounded.
Qed.

Lemma gaussian_integral_values_inhabited : exists y, gaussian_integral_values y.
Proof. exists (gaussian_integral 0), 0. reflexivity. Qed.

End HalfMass.

Definition gaussian_half_mass : R :=
  proj1_sig (completeness gaussian_integral_values
               gaussian_integral_values_bound
               gaussian_integral_values_inhabited).

(** The normal distribution function: the integral of the kernel from minus
    infinity, divided by the total mass. *)
Definition normal_distribution (x : R) : R :=
  (gaussian_half_mass + gaussian_integral x) / (2 * gaussian_half_mass).

Section NormalDistribution.

Lemma gaussian_half_mass_is_lub :
  is_lub gaussian_integral_values gaussian_half_mass.
Proof.
  exact (proj2_sig (completeness gaussian_integral_values
                      gaussian_integral_values_bound
                      gaussian_integral_values_inhabited)).
Qed.

Lemma gaussian_integral_le_half_mass (x : R) :
  gaussian_integral x <= gaussian_half_mass.
Proof.
  destruct gaussian_half_mass_is_lub as [Hub _].
  apply Hub. exists x. reflexivity.
Qed.

Lemma gaussian_half_mass_pos : 0 < gaussian_half_mass.
Proof.
  pose proof (gaussian_integral_strictly_increasing 0 1 Rlt_0_1) as H.
  rewrite gaussian_integral_0 in H.
  pose proof (gaussian_integral_le_half_mass 1). lra.
Qed.

Lemma gaussian_half_mass_approached (eps : R) :
  0 < eps -> exists x0, gaussian_half_mass - eps < gaussian_integral x0.
Proof.
  intros Heps.
  destruct (classic (exists x0, gaussian_half_mass - eps < gaussian_integral x0))
    as [H|H]; [exact H|exfalso].
  destruct gaussian_half_mass_is_lub as [_ Hleast].
  assert (Hub : is_upper_bound gaussian_integral_values (gaussian_half_mass - eps)).
  { intros y [x ->].
    destruct (Rle_or_lt (gaussian_integral x) (gaussian_half_mass - eps))
      as [?|Hlt]; [assumption|].
    exfalso. apply H. exists x. exact Hlt. }
  specialize (Hleast _ Hub). lra.
Qed.

Theorem normal_distribution_cdf : standard_normal_cdf normal_distribution.
Proof.
  pose proof gaussian_half_mass_pos as Hm.
  assert (Hinv : 0 < / (2 * gaussian_half_mass))
    by (apply Rinv_0_lt_compat; lra).
  constructor.
  - exists (/ (2 * gaussian_half_mass)). split; [exact Hinv|].
    intros x.
    apply (derivable_pt_lim_ext
             (fun y => / (2 * gaussian_half_mass) * gaussian_integral y
                       + gaussian_half_mass / (2 * gaussian_half_mass))).
    + intros z. unfold normal_distribution. field. lra.
    + replace (/ (2 * gaussian_half_mass) * gaussian_kernel x)
        with (/ (2 * gaussian_half_mass) * gaussian_kernel x + 0) by ring.
      apply (derivable_pt_lim_plus
               (mult_real_fct (/ (2 * gaussian_half_mass)) gaussian_integral)
               (fun _ => gaussian_half_mass / (2 * gaussian_half_mass))).
      * apply derivable_pt_lim_scal, derivable_pt_lim_gaussian_integral.
      * apply derivable_pt_lim_const.
  - intros eps Heps.
    destruct (gaussian_half_mass_approached (eps * (2 * gaussian_half_mass)))
      as [x0 Hx0]; [apply Rmult_lt_0_compat; lra|].
    exists (- x0). intros x Hx.
    assert (Hup : gaussian_integral x
                  < - gaussian_half_mass + eps * (2 * gaussian_half_mass)).
    { pose proof (gaussian_integral_increasing x (- x0) (Rlt_le _ _ Hx)) as H.
      rewrite gaussian_integral_odd in H. lra. }
    assert (Hlow : - gaussian_half_mass <= gaussian_integral x).
    { pose proof (gaussian_integral_le_half_mass (- x)) as H.
      rewrite gaussian_integral_odd in H. lra. }
    rewrite Rminus_0_r. unfold normal_distribution.
    rewrite Rabs_right.
    + apply (Rmult_lt_reg_r (2 * gaussian_half_mass)); [lra|].
      replace ((gaussian_half_mass + gaussian_integral x)
               / (2 * gaussian_half_mass) * (2 * gaussian_half_mass))
        with (gaussian_half_mass + gaussian_integral x) by (field; lra).
      lra.
    + apply Rle_ge. apply Rmult_le_pos; lra.
  - intros eps Heps.
    destruct (gaussian_half_mass_approached (eps * (2 * gaussian_half_mass)))
      as [x0 Hx0]; [apply Rmult_lt_0_compat; lra|].
    exists x0. intros x Hx.
    pose proof (gaussian_integral_increasing x0 x (Rlt_le _ _ Hx)) as Hlow.
    pose proof (gaussian_integral_le_half_mass x) as Hup.
    replace (normal_distribution x - 1)
      with (- ((gaussian_half_mass - gaussian_integral x)
               / (2 * gaussian_half_mass)))
      by (unfold normal_distribution; field; lra).
    rewrite Rabs_Ropp, Rabs_right.
    + apply (Rmult_lt_reg_r (2 * gaussian_half_mass)); [lra|].
      replace ((gaussian_half_mass - gaussian_integral x)
               / (2 * gaussian_half_mass) * (2 * gaussian_half_mass))
        with (gaussian_half_mass - gaussian_integral x) by (field; lra).
      lra.
    + apply Rle_ge. apply Rmult_le_pos; lra.
Qed.

End NormalDistribution.

(** ** The statements at concrete inputs *)

(** A generator to run the simulation engine on: the state counts the
    draws made since the seed, and the [n]-th variate is [n] itself. *)
Definition counting_generator : np.random.BitGenerator :=
  {| np.random.state := nat;
     np.random.seeded := fun n => Z.to_nat n;
     np.random.gauss := fun g => (INR g, S g) |}.

(** The state of [counting_generator] after [n] draws. *)
Definition after_draws (n : nat) : @np.random.state counting_generator := n.

Section Examples.

Example py_eq_member : py_eq (PyEnum PUT_OPTION) PUT_OPTION = true.
Proof. reflexivity. Qed.

Example py_eq_value_of_member : py_eq (PyStr "Call Option") CALL_OPTION = false.
Proof. reflexivity. Qed.

Example standard_normal_three_draws :
  np.random.standard_normal 3 (after_draws 20)
  = ([INR 20; INR 21; INR 22], after_draws 23).
Proof. reflexivity. Qed.

Example backward_step_three_values (self : BinomialTreeModel.t) (x y z : R) :
  BinomialTreeModel.backward_step self [x; y; z]
  = [BinomialTreeModel.discount self
     * (BinomialTreeModel.p self * x + BinomialTreeModel.q self * y);
     BinomialTreeModel.discount self
     * (BinomialTreeModel.p self * y + BinomialTreeModel.q self * z)].
Proof. reflexivity. Qed.

Example two_backward_steps (self : BinomialTreeModel.t) (x y z : R) :
  List.length (for_range 2 (BinomialTreeModel.backward_step self) [x; y; z])
  = 1%nat.
Proof. reflexivity. Qed.

Example fresh_instance_has_no_terminal_prices :
  MonteCarloPricing.S_T
    (fst (MonteCarloPricing.__init__ 100 100 365 0.05 0.2 2 (after_draws 0)))
  = None.
Proof. reflexivity. Qed.

End Examples.

(** When the growth over one step stays between the down and the up move,
    the up-probability of the lattice is a probability. *)
Lemma up_probability_bounds
    (S0 K0 : R) (days : Z) (r0 sigma0 : R) (steps : nat) :
  let dT := IZR days / 365 / INR steps in
  let self := BinomialTreeModel.__init__ S0 K0 days r0 sigma0 steps in
  0 < sigma0 * sqrt dT ->
  - (sigma0 * sqrt dT) <= r0 * dT <= sigma0 * sqrt dT ->
  0 <= BinomialTreeModel.p self <= 1.
Proof.
  intros dT self Hx [Hlo Hhi].
  change (BinomialTreeModel.p self)
    with ((exp (r0 * dT) - 1 / exp (sigma0 * sqrt dT))
          / (exp (sigma0 * sqrt dT) - 1 / exp (sigma0 * sqrt dT))).
  replace (1 / exp (sigma0 * sqrt dT)) with (exp (- (sigma0 * sqrt dT)))
    by (rewrite exp_Ropp; field; apply Rgt_not_eq, exp_pos).
  set (x := sigma0 * sqrt dT) in *. set (y := r0 * dT) in *.
  assert (Hdu : exp (- x) < exp x) by (apply exp_increasing; lra).
  assert (Hda : exp (- x) <= exp y).
  { destruct Hlo as [H|H]; [left; apply exp_increasing; exact H | rewrite H; lra]. }
  assert (Hau : exp y <= exp x).
  { destruct Hhi as [H|H]; [left; apply exp_increasing; exact H | rewrite H; lra]. }
  split.
  - apply Rmult_le_pos; [lra|]. left. apply Rinv_0_lt_compat. lra.
  - apply (Rmult_le_reg_r (exp x - exp (- x))); [lra|].
    replace ((exp y - exp (- x)) / (exp x - exp (- x)) * (exp x - exp (- x)))
      with (exp y - exp (- x)) by (field; lra).
    lra.
Qed.

Lemma one_year_one_step : 365 / 365 / INR 1 = 1.
Proof. simpl. lra. Qed.

(** C1 at [S = K = 100], one year, [r = 5%], [sigma = 20%]: [d1 = 0.35],
    [d2 = 0.15]. *)
Lemma black_scholes_formula_witness :
  let self := BlackScholesModel.__init__ 100 100 365 0.05 0.2 in
  BlackScholesModel.d1 self = 0.35
  /\ BlackScholesModel.d2 self = 0.15
  /\ BlackScholesModel.calculate_option_price normal_distribution self
       (PyEnum CALL_OPTION)
     = Return (100 * normal_distribution (BlackScholesModel.d1 self)
               - 100 * exp (- (0.05) * (365 / 365))
                 * normal_distribution (BlackScholesModel.d2 self)).
Proof.
  intros self.
  destruct (black_scholes_formula normal_distribution 100 100 365 0.05 0.2)
    as ((_ & Hd1 & Hd2) & Hcall & _); try lra.
  fold self in Hd1, Hd2, Hcall.
  assert (H1 : BlackScholesModel.d1 self = 0.35).
  { rewrite Hd1. replace (365 / 365) with 1 by lra.
    replace (100 / 100) with 1 by lra. rewrite ln_1, sqrt_1. lra. }
  split; [exact H1|]. split; [|exact Hcall].
  rewrite Hd2, H1. replace (365 / 365) with 1 by lra. rewrite sqrt_1. lra.
Defined.

(** C4 at the same input. *)
Lemma put_call_parity_witness :
  exists call put,
    BlackScholesModel.calculate_option_price normal_distribution
      (BlackScholesModel.__init__ 100 100 365 0.05 0.2) (PyEnum CALL_OPTION)
    = Return call
    /\ BlackScholesModel.calculate_option_price normal_distribution
         (BlackScholesModel.__init__ 100 100 365 0.05 0.2) (PyEnum PUT_OPTION)
       = Return put
    /\ call - put = 100 - 100 * exp (- (0.05) * (365 / 365)).
Proof.
  apply (put_call_parity normal_distribution normal_distribution_cdf
           100 100 365 0.05 0.2); lra.
Defined.

(** C2 with one step: the one-period binomial formula. *)
Lemma binomial_tree_algorithm_witness :
  let self := BinomialTreeModel.__init__ 100 100 365 0.05 0.2 1 in
  BinomialTreeModel.calculate_option_price self (PyEnum CALL_OPTION)
  = Return (BinomialTreeModel.discount self
            * (BinomialTreeModel.p self
               * Rmax (100 * BinomialTreeModel.u self - 100) 0
               + BinomialTreeModel.q self
                 * Rmax (100 * BinomialTreeModel.d self - 100) 0)).
Proof.
  intros self.
  destruct (binomial_tree_algorithm 100 100 365 0.05 0.2 1 CALL_OPTION)
    as (_ & _ & _ & _ & _ & v & Hv & Hprice); [lia|].
  fold self in Hv, Hprice. rewrite Hprice. f_equal.
  assert (Hstep : for_range 1 (BinomialTreeModel.backward_step self)
                    (map (lattice_payoff 100 CALL_OPTION)
                         (BinomialTreeModel.terminal_prices self))
                  = [BinomialTreeModel.discount self
                     * (BinomialTreeModel.p self
                        * Rmax (100 * (BinomialTreeModel.u self * 1) * 1 - 100) 0
                        + BinomialTreeModel.q self
                          * Rmax (100 * 1 * (BinomialTreeModel.d self * 1) - 100) 0)])
    by reflexivity.
  rewrite Hstep in Hv. injection Hv as <-.
  rewrite !Rmult_1_r. reflexivity.
Defined.

(** C10 with two steps. *)
Lemma binomial_tree_closed_form_witness :
  let self := BinomialTreeModel.__init__ 100 100 365 0.05 0.2 2 in
  BinomialTreeModel.calculate_option_price self (PyEnum PUT_OPTION)
  = Return (BinomialTreeModel.discount self ^ 2
            * sum_f_R0
                (fun j => C 2 j * BinomialTreeModel.p self ^ (2 - j)
                          * BinomialTreeModel.q self ^ j
                          * lattice_payoff 100 PUT_OPTION
                              (100 * BinomialTreeModel.u self ^ (2 - j)
                               * BinomialTreeModel.d self ^ j))
                2).
Proof.
  apply (binomial_tree_closed_form 100 100 365 0.05 0.2 2 PUT_OPTION). lia.
Defined.

(** C3 on a fresh instance with two simulations. *)
Lemma monte_carlo_pricing_witness :
  let self :=
    fst (MonteCarloPricing.__init__ (G := counting_generator)
           100 100 365 0.05 0.2 2 (after_draws 0)) in
  let query :=
    MonteCarloPricing.calculate_option_price self (PyEnum CALL_OPTION) (after_draws 20) in
  exists prices,
    MonteCarloPricing.S_T (snd (fst query)) = Some prices
    /\ List.length prices = 2%nat
    /\ fst (fst query)
       = Return (exp (- (0.05) * (365 / 365))
                 * np.mean (map (simulation_payoff 100 CALL_OPTION) prices)).
Proof.
  intros self query.
  destruct (monte_carlo_pricing (G := counting_generator)
              100 100 365 0.05 0.2 2 self (after_draws 20) CALL_OPTION)
    as (_ & prices & H1 & H2 & _ & H4); [lia | apply instance_init|].
  exists prices. auto.
Defined.

(** C6 at [S = K = 100], one year, [r = 5%], [sigma = 20%], one lattice
    step and two simulations. *)
Lemma prices_nonnegative_witness :
  (exists v,
     BlackScholesModel.calculate_option_price normal_distribution
       (BlackScholesModel.__init__ 100 100 365 0.05 0.2) (PyEnum PUT_OPTION)
     = Return v /\ 0 <= v)
  /\ (exists v,
        BinomialTreeModel.calculate_option_price
          (BinomialTreeModel.__init__ 100 100 365 0.05 0.2 1) (PyEnum PUT_OPTION)
        = Return v /\ 0 <= v)
  /\ (exists v,
        fst (fst (MonteCarloPricing.calculate_option_price
                    (fst (MonteCarloPricing.__init__ (G := counting_generator)
                            100 100 365 0.05 0.2 2 (after_draws 0)))
                    (PyEnum PUT_OPTION) (after_draws 20)))
        = Return v /\ 0 <= v).
Proof.
  apply (prices_nonnegative (G := counting_generator)
           normal_distribution normal_distribution_cdf
           100 100 365 0.05 0.2 1 2 _ (after_draws 20)); try lra; try lia.
  - apply up_probability_bounds; rewrite one_year_one_step, sqrt_1; lra.
  - apply instance_init.
Defined.

(** C8 (as the code has it) on a fresh instance queried with the string
    ['Call Option']. *)
Lemma failing_query_state_witness :
  let self :=
    fst (MonteCarloPricing.__init__ (G := counting_generator)
           100 100 365 0.05 0.2 2 (after_draws 0)) in
  let query :=
    MonteCarloPricing.calculate_option_price self (PyStr "Call Option") (after_draws 20) in
  (snd (fst query), snd query)
  = MonteCarloPricing.simulate_terminal_prices self (after_draws 20)
  /\ exists prices, MonteCarloPricing.S_T (snd (fst query)) = Some prices
                    /\ List.length prices = 2%nat.
Proof.
  intros self query.
  destruct (failing_query_state (G := counting_generator) self
              (PyStr "Call Option") (after_draws 20) InvalidOptionType)
    as (_ & _ & _ & H); [reflexivity|].
  apply H. reflexivity.
Defined.

(** C8 as stated fails: a fresh instance has no terminal prices, the query
    with the string ['Call Option'] fails with the invalid-option-type
    error, and afterwards the instance holds two terminal prices and the
    generator has moved on by two draws. *)
Lemma failing_query_stores_terminal_prices :
  let self :=
    fst (MonteCarloPricing.__init__ (G := counting_generator)
           100 100 365 0.05 0.2 2 (after_draws 0)) in
  let query :=
    MonteCarloPricing.calculate_option_price self (PyStr "Call Option") (after_draws 20) in
  fst (fst query) = Raise InvalidOptionType
  /\ MonteCarloPricing.S_T self = None
  /\ MonteCarloPricing.S_T (snd (fst query))
     = Some [MonteCarloPricing.terminal_price self (INR 20);
             MonteCarloPricing.terminal_price self (INR 21)]
  /\ snd (fst query) <> self
  /\ snd query = after_draws 22.
Proof.
  repeat split; try reflexivity.
  intros H. apply (f_equal MonteCarloPricing.S_T) in H. discriminate H.
Qed.

(** * Further properties of the engines *)

(** ** Put-call parity on the lattice *)

Section LatticeParity.
Import BinomialTreeModel.

Lemma exp_pow_INR (x : R) (n : nat) : exp x ^ n = exp (INR n * x).
Proof.
  induction n as [|n IH].
  - simpl. rewrite Rmult_0_l, exp_0. reflexivity.
  - rewrite S_INR, Rmult_plus_distr_r, Rmult_1_l, exp_plus, <- IH. simpl. ring.
Qed.

Lemma psum_scal_minus (f g : nat -> R) (n : nat) :
  psum (fun j => f j - g j) n = psum f n - psum g n.
Proof. induction n as [|n IH]; simpl; [lra|]. rewrite IH. lra. Qed.

Lemma payoff_difference (K0 s : R) :
  lattice_payoff K0 CALL_OPTION s - lattice_payoff K0 PUT_OPTION s = s - K0.
Proof.
  simpl. unfold Rmax.
  destruct (Rle_dec (s - K0) 0), (Rle_dec (K0 - s) 0); lra.
Qed.

(** The value [calculate_option_price] returns, as a sum over the terminal
    nodes, for any instance. *)
Lemma lattice_price_sum (self : BinomialTreeModel.t) (ot : OPTION_TYPE) :
  calculate_option_price self (PyEnum ot)
  = Return (discount self ^ N self
            * psum (fun j => binomial_weight (p self) (q self) (N self) j
                             * lattice_payoff (K self) ot
                                 (BinomialTreeModel.S self
                                  * u self ^ (N self - j) * d self ^ j))
                   (Datatypes.S (N self))).
Proof.
  rewrite calculate_option_price_enum.
  set (payoffs := map (lattice_payoff (K self) ot) (terminal_prices self)).
  assert (Hlenp : List.length payoffs = (N self + 1)%nat)
    by (unfold payoffs; rewrite length_map; apply length_terminal_prices).
  destruct (item0_singleton (for_range (N self) (backward_step self) payoffs))
    as [_ Hitem].
  { rewrite length_for_range_backward, Hlenp. lia. }
  rewrite Hitem. f_equal.
  rewrite nth_for_range_backward by (rewrite Hlenp; lia).
  f_equal. apply psum_ext. intros j Hj. unfold payoffs. simpl.
  rewrite (nth_indep _ 0 (lattice_payoff (K self) ot 0))
    by (rewrite length_map, length_terminal_prices; lia).
  rewrite map_nth, nth_terminal_prices by lia.
  reflexivity.
Qed.

(** The binomial theorem for the weights of the lattice. *)
Lemma binomial_weight_sum (p0 q0 x y : R) (n : nat) :
  psum (fun j => binomial_weight p0 q0 n j * (x ^ (n - j) * y ^ j))
       (Datatypes.S n)
  = (q0 * y + p0 * x) ^ n.
Proof.
  rewrite binomial, psum_sum_f_R0.
  apply psum_ext. intros j Hj. unfold binomial_weight.
  rewrite !Rpow_mult_distr. ring.
Qed.

Lemma lattice_constants
    (S0 K0 : R) (days : Z) (r0 sigma0 : R) (steps : nat) :
  let T := IZR days / 365 in
  let self := BinomialTreeModel.__init__ S0 K0 days r0 sigma0 steps in
  0 < T -> 0 < sigma0 -> (1 <= steps)%nat ->
  d self < 1 < u self
  /\ q self * d self + p self * u self = a self
  /\ q self + p self = 1
  /\ discount self * a self = 1
  /\ discount self ^ steps = exp (- r0 * T).
Proof.
  intros T self HT Hsigma Hsteps.
  assert (HN : 0 < INR steps) by (apply lt_0_INR; lia).
  assert (HdT : 0 < T / INR steps) by (apply Rdiv_lt_0_compat; assumption).
  assert (Hx : 0 < sigma0 * sqrt (T / INR steps))
    by (apply Rmult_lt_0_compat; [assumption | apply sqrt_lt_R0; assumption]).
  assert (Hu : 1 < u self).
  { change (u self) with (exp (sigma0 * sqrt (T / INR steps))).
    rewrite <- exp_0. apply exp_increasing. exact Hx. }
  assert (Hd : d self = / u self)
    by (change (d self) with (1 / u self); unfold Rdiv; ring).
  assert (Hd1 : d self < 1).
  { rewrite Hd, <- Rinv_1. apply Rinv_lt_contravar; lra. }
  split; [split; assumption|].
  split; [|split; [|split]].
  - change (q self) with (1 - p self).
    change (p self) with ((a self - d self) / (u self - d self)).
    field. lra.
  - change (q self) with (1 - p self). ring.
  - change (discount self) with (exp (- r0 * (T / INR steps))).
    change (a self) with (exp (r0 * (T / INR steps))).
    rewrite <- exp_plus, <- exp_0. f_equal. ring.
  - change (discount self) with (exp (- r0 * (T / INR steps))).
    rewrite exp_pow_INR. f_equal. field. lra.
Qed.

Lemma lattice_put_call_parity_aux
    (S0 K0 : R) (days : Z) (r0 sigma0 : R) (steps : nat) :
  let T := IZR days / 365 in
  let self := BinomialTreeModel.__init__ S0 K0 days r0 sigma0 steps in
  0 < T -> 0 < sigma0 -> (1 <= steps)%nat ->
  exists call put,
    calculate_option_price self (PyEnum CALL_OPTION) = Return call
    /\ calculate_option_price self (PyEnum PUT_OPTION) = Return put
    /\ call - put = S0 - K0 * exp (- r0 * T).
Proof.
  intros T self HT Hsigma Hsteps.
  destruct (lattice_constants S0 K0 days r0 sigma0 steps HT Hsigma Hsteps)
    as (_ & Hmart & Hone & Hda & Hdisc).
  fold T self in Hmart, Hone, Hda, Hdisc.
  eexists. eexists.
  split; [apply lattice_price_sum|]. split; [apply lattice_price_sum|].
  change (N self) with steps. change (K self) with K0.
  change (BinomialTreeModel.S self) with S0.
  rewrite <- Rmult_minus_distr_l, <- psum_scal_minus.
  rewrite (psum_ext _
             (fun j => S0 * (binomial_weight (p self) (q self) steps j
                             * (u self ^ (steps - j) * d self ^ j))
                       + - K0 * (binomial_weight (p self) (q self) steps j
                                 * (1 ^ (steps - j) * 1 ^ j)))).
  - rewrite psum_plus, !psum_scal, !binomial_weight_sum.
    rewrite Hmart, !Rmult_1_r, Hone, pow1.
    rewrite Rmult_plus_distr_l.
    replace (discount self ^ steps * (S0 * a self ^ steps))
      with (S0 * (discount self * a self) ^ steps)
      by (rewrite Rpow_mult_distr; ring).
    rewrite Hda, pow1, Hdisc. ring.
  - intros j Hj. rewrite !pow1.
    set (s := S0 * u self ^ (steps - j) * d self ^ j).
    replace (binomial_weight (p self) (q self) steps j
             * lattice_payoff K0 CALL_OPTION s
             - binomial_weight (p self) (q self) steps j
               * lattice_payoff K0 PUT_OPTION s)
      with (binomial_weight (p self) (q self) steps j
            * (lattice_payoff K0 CALL_OPTION s - lattice_payoff K0 PUT_OPTION s))
      by ring.
    rewrite payoff_difference. unfold s. ring.
Qed.

(** X1. Put-call parity holds exactly on the lattice: with [T > 0],
    [sigma > 0] and [N >= 1], the CALL price minus the PUT price of a
    binomial-tree model is [S - K * exp (- r * T)], for every strike, rate
    and number of steps. *)
Theorem lattice_put_call_parity
    (S0 K0 : R) (days : Z) (r0 sigma0 : R) (steps : nat) :
  let T := IZR days / 365 in
  let self := BinomialTreeModel.__init__ S0 K0 days r0 sigma0 steps in
  0 < T -> 0 < sigma0 -> (1 <= steps)%nat ->
  exists call put,
    calculate_option_price self (PyEnum CALL_OPTION) = Return call
    /\ calculate_option_price self (PyEnum PUT_OPTION) = Return put
    /\ call - put = S0 - K0 * exp (- r0 * T).
Proof.
  exact (lattice_put_call_parity_aux S0 K0 days r0 sigma0 steps).
Qed.

End LatticeParity.

(** ** Bounds on the prices *)

Section PriceBounds.






Variable Phi : R -> R.
Hypothesis HPhi : standard_normal_cdf Phi.

Lemma cdf_le_1 (x : R) : Phi x <= 1.
Proof.
  pose proof (cdf_symmetry Phi HPhi x). pose proof (cdf_nonneg Phi HPhi (- x)).
  lra.
Qed.

(** X3. The Black-Scholes prices respect the no-arbitrage bounds: with
    [S > 0], [K > 0], [T > 0] and [sigma > 0], the CALL price lies between
    [max (S - K * exp (- r * T)) 0] and [S], and the PUT price between
    [max (K * exp (- r * T) - S) 0] and [K * exp (- r * T)]. *)
Theorem black_scholes_price_bounds (S0 K0 : R) (days : Z) (r0 sigma0 : R) :
  let T := IZR days / 365 in
  let self := BlackScholesModel.__init__ S0 K0 days r0 sigma0 in
  0 < S0 -> 0 < K0 -> 0 < T -> 0 < sigma0 ->
  exists call put,
    BlackScholesModel.calculate_option_price Phi self (PyEnum CALL_OPTION)
    = Return call
    /\ BlackScholesModel.calculate_option_price Phi self (PyEnum PUT_OPTION)
       = Return put
    /\ Rmax (S0 - K0 * exp (- r0 * T)) 0 <= call <= S0
    /\ Rmax (K0 * exp (- r0 * T) - S0) 0 <= put <= K0 * exp (- r0 * T).
Proof.
  intros T self HS HK HT Hsigma.
  pose proof (black_scholes_call_nonneg Phi HPhi S0 K0 days r0 sigma0
                HS HK HT Hsigma) as Hcall.
  pose proof (black_scholes_put_nonneg Phi HPhi S0 K0 days r0 sigma0
                HS HK HT Hsigma) as Hput.
  fold T self in Hcall, Hput.
  eexists. eexists. split; [reflexivity|]. split; [reflexivity|].
  change (BlackScholesModel.S self) with S0.
  change (BlackScholesModel.K self) with K0.
  change (BlackScholesModel.r self) with r0.
  change (BlackScholesModel.T self) with T.
  set (d1 := BlackScholesModel.d1 self) in *.
  set (d2 := BlackScholesModel.d2 self) in *.
  pose proof (cdf_symmetry Phi HPhi d1) as Hs1.
  pose proof (cdf_symmetry Phi HPhi d2) as Hs2.
  pose proof (cdf_nonneg Phi HPhi d1). pose proof (cdf_nonneg Phi HPhi d2).
  pose proof (cdf_le_1 d1). pose proof (cdf_le_1 d2).
  assert (He : 0 < K0 * exp (- r0 * T))
    by (apply Rmult_lt_0_compat; [exact HK | apply exp_pos]).
  set (D := K0 * exp (- r0 * T)) in *.
  rewrite Hs1, Hs2 in *.
  split; split.
  - apply Rmax_lub; nra.
  - nra.
  - apply Rmax_lub; nra.
  - nra.
Qed.

End PriceBounds.

(** ** Parity and bounds in the simulation engine *)

Section MonteCarloParity.
Context {G : np.random.BitGenerator}.
Import MonteCarloPricing.

Lemma sum_payoff_difference (K0 : R) (V : list R) :
  np.sum (map (simulation_payoff K0 CALL_OPTION) V)
  - np.sum (map (simulation_payoff K0 PUT_OPTION) V)
  = np.sum V - INR (List.length V) * K0.
Proof.
  induction V as [|s V IH]; [simpl; ring|].
  change (List.length (s :: V)) with (Datatypes.S (List.length V)).
  rewrite S_INR. simpl map. simpl np.sum.
  assert (Hs : Rmax (s - K0) 0 - Rmax (K0 - s) 0 = s - K0).
  { unfold Rmax. destruct (Rle_dec (s - K0) 0), (Rle_dec (K0 - s) 0); lra. }
  lra.
Qed.

Lemma sum_map_le (f h : R -> R) (V : list R) :
  (forall s, In s V -> f s <= h s) -> np.sum (map f V) <= np.sum (map h V).
Proof.
  induction V as [|s V IH]; intros H; simpl; [lra|].
  assert (f s <= h s) by (apply H; left; reflexivity).
  assert (np.sum (map f V) <= np.sum (map h V))
    by (apply IH; intros; apply H; right; assumption).
  lra.
Qed.

Lemma sum_map_id (V : list R) : np.sum (map (fun s => s) V) = np.sum V.
Proof. rewrite map_id. reflexivity. Qed.

Lemma sum_map_const (c : R) (V : list R) :
  np.sum (map (fun _ => c) V) = INR (List.length V) * c.
Proof.
  induction V as [|s V IH]; [simpl; ring|].
  change (List.length (s :: V)) with (Datatypes.S (List.length V)).
  rewrite S_INR. simpl. rewrite IH. ring.
Qed.

(** A query on an instance: the terminal prices it leaves, and its result
    for a member of the enum. *)
Lemma query_on_instance S0 K0 days r0 sigma0 M self g ot :
  instance S0 K0 days r0 sigma0 M self ->
  exists prices g0,
    S_T (snd (fst (calculate_option_price self (PyEnum ot) g))) = Some prices
    /\ prices = map (gbm_terminal S0 r0 sigma0 (IZR days / 365))
                    (fst (np.random.standard_normal M g0))
    /\ fst (fst (calculate_option_price self (PyEnum ot) g))
       = Return (exp (- r0 * (IZR days / 365))
                 * np.mean (map (simulation_payoff K0 ot) prices))
    /\ (forall prices0, S_T self = Some prices0 -> prices = prices0).
Proof.
  intros Hinst.
  pose proof (instance_calculate_option_price _ _ _ _ _ _ self (PyEnum ot) g Hinst)
    as Hinst'.
  pose proof (instance_has_invariant _ _ _ _ _ _ _ Hinst') as Hinv'.
  destruct (calculate_option_price_unfold self (PyEnum ot) g) as (v & Hv & Heq).
  rewrite Heq in *. cbn [fst snd] in *.
  destruct Hinv' as (H1 & H2 & H3 & H4 & H5 & H6 & H7 & H8).
  destruct H8 as [H8 | [g0 H8]]; [congruence|].
  rewrite Hv in H8. injection H8 as H8.
  exists v, g0. split; [exact Hv|]. split; [|split].
  - rewrite H8. apply (terminal_price_gbm S0 K0 days r0 sigma0 M).
    unfold instance_invariant. rewrite Hv. repeat (split; [assumption|]).
    right. exists g0. rewrite H8. reflexivity.
  - rewrite payoffs_enum, H7, H2. reflexivity.
  - intros prices0 Hp0. unfold ensure_terminal_prices in Hv.
    rewrite Hp0 in Hv. simpl in Hv. congruence.
Qed.

(** X4. The sample put-call parity of the simulation engine: when an
    instance with [M >= 1] simulations is queried for the CALL price and
    then for the PUT price, both are computed from the same [M] terminal
    prices, and the CALL price minus the PUT price is [exp (- r * T)] times
    (the mean terminal price minus [K]). *)
Theorem monte_carlo_put_call_parity
    (S0 K0 : R) (days : Z) (r0 sigma0 : R) (M : nat)
    (self : MonteCarloPricing.t) (g g2 : np.random.state) :
  (1 <= M)%nat ->
  instance S0 K0 days r0 sigma0 M self ->
  let call_query := calculate_option_price self (PyEnum CALL_OPTION) g in
  let put_query :=
    calculate_option_price (snd (fst call_query)) (PyEnum PUT_OPTION) g2 in
  exists prices call put,
    S_T (snd (fst call_query)) = Some prices
    /\ S_T (snd (fst put_query)) = Some prices
    /\ List.length prices = M
    /\ fst (fst call_query) = Return call
    /\ fst (fst put_query) = Return put
    /\ call - put = exp (- r0 * (IZR days / 365)) * (np.mean prices - K0).
Proof.
  intros HM Hinst call_query put_query.
  destruct (query_on_instance S0 K0 days r0 sigma0 M self g CALL_OPTION Hinst)
    as (prices & g0 & Hprices & Hgbm & Hcall & _).
  fold call_query in Hprices, Hcall.
  pose proof (instance_calculate_option_price _ _ _ _ _ _ self
                (PyEnum CALL_OPTION) g Hinst) as Hinst1.
  fold call_query in Hinst1.
  destruct (query_on_instance S0 K0 days r0 sigma0 M (snd (fst call_query)) g2
              PUT_OPTION Hinst1)
    as (prices2 & _ & Hprices2 & _ & Hput & Hsame).
  fold put_query in Hprices2, Hput.
  specialize (Hsame _ Hprices). subst prices2.
  assert (Hlen : List.length prices = M)
    by (rewrite Hgbm, length_map; apply length_standard_normal).
  exists prices. eexists. eexists.
  split; [exact Hprices|]. split; [exact Hprices2|]. split; [exact Hlen|].
  split; [exact Hcall|]. split; [exact Hput|].
  unfold np.mean. rewrite !length_map, Hlen.
  assert (HM0 : INR M <> 0) by (apply not_0_INR; lia).
  pose proof (sum_payoff_difference K0 prices) as Hd. rewrite Hlen in Hd.
  replace (np.sum prices / INR M - K0)
    with ((np.sum prices - INR M * K0) / INR M) by (field; exact HM0).
  rewrite <- Hd. field. exact HM0.
Qed.

(** X5. Bounds on the simulated prices: for an instance with [S > 0],
    [K > 0] and [M >= 1] simulations, every terminal price is positive,
    the CALL price lies between [0] and the discounted mean terminal price,
    and the PUT price between [0] and [K * exp (- r * T)]. *)
Theorem monte_carlo_price_bounds
    (S0 K0 : R) (days : Z) (r0 sigma0 : R) (M : nat)
    (self : MonteCarloPricing.t) (g : np.random.state) (ot : OPTION_TYPE) :
  0 < S0 -> 0 < K0 -> (1 <= M)%nat ->
  instance S0 K0 days r0 sigma0 M self ->
  let query := calculate_option_price self (PyEnum ot) g in
  exists prices price,
    S_T (snd (fst query)) = Some prices
    /\ (forall s, In s prices -> 0 < s)
    /\ fst (fst query) = Return price
    /\ 0 <= price
    /\ price <= exp (- r0 * (IZR days / 365))
                * match ot with
                  | CALL_OPTION => np.mean prices
                  | PUT_OPTION => K0
                  end.
Proof.
  intros HS HK HM Hinst query.
  destruct (query_on_instance S0 K0 days r0 sigma0 M self g ot Hinst)
    as (prices & g0 & Hprices & Hgbm & Hres & _).
  fold query in Hprices, Hres.
  assert (Hlen : List.length prices = M)
    by (rewrite Hgbm, length_map; apply length_standard_normal).
  assert (Hpos : forall s, In s prices -> 0 < s).
  { intros s Hs. rewrite Hgbm in Hs. apply in_map_iff in Hs.
    destruct Hs as (z & <- & _). unfold gbm_terminal.
    apply Rmult_lt_0_compat; [exact HS | apply exp_pos]. }
  assert (HM0 : 0 < / INR M) by (apply Rinv_0_lt_compat, lt_0_INR; lia).
  exists prices. eexists.
  split; [exact Hprices|]. split; [exact Hpos|]. split; [exact Hres|].
  split.
  - apply Rmult_le_pos; [left; apply exp_pos|].
    apply mean_nonneg; [|rewrite length_map; lia].
    intros x Hx. apply in_map_iff in Hx. destruct Hx as (s & <- & _).
    apply simulation_payoff_nonneg.
  - apply Rmult_le_compat_l; [left; apply exp_pos|].
    unfold np.mean. rewrite length_map, Hlen.
    destruct ot.
    + apply Rmult_le_compat_r; [lra|].
      rewrite <- (sum_map_id prices). apply sum_map_le.
      intros s Hs. simpl. specialize (Hpos s Hs). apply Rmax_lub; lra.
    + replace K0 with (np.sum (map (fun _ => K0) prices) / INR M) at 2.
      * apply Rmult_le_compat_r; [lra|]. apply sum_map_le.
        intros s Hs. simpl. specialize (Hpos s Hs). apply Rmax_lub; lra.
      * rewrite sum_map_const, Hlen. field. apply not_0_INR. lia.
Qed.

End MonteCarloParity.

(** ** Simulated price paths *)

Section PricePaths.
Context {G : np.random.BitGenerator}.
Import MonteCarloPricing.

Lemma standard_normal_matrix_shape (rows cols : nat) (g : np.random.state) :
  let Z := fst (standard_normal_matrix rows cols g) in
  List.length Z = rows /\ forall row, In row Z -> List.length row = cols.
Proof.
  revert g. induction rows as [|rows IH]; intros g; simpl.
  - split; [reflexivity | intros row []].
  - pose proof (length_standard_normal cols g) as Hrow.
    destruct (np.random.standard_normal cols g) as [row g1].
    specialize (IH g1).
    destruct (standard_normal_matrix rows cols g1) as [rest g2].
    simpl in *. destruct IH as [IH1 IH2]. split; [lia|].
    intros row' [<- | Hin]; [exact Hrow | apply IH2, Hin].
Qed.

Lemma length_path_step (self : MonteCarloPricing.t) (dt : R) (prev Zrow : list R) :
  List.length (path_step self dt prev Zrow)
  = Nat.min (List.length prev) (List.length Zrow).
Proof. unfold path_step. rewrite length_map, length_combine. reflexivity. Qed.

Lemma nth_path_step (self : MonteCarloPricing.t) (dt : R) (prev Zrow : list R)
    (i : nat) :
  List.length prev = List.length Zrow -> (i < List.length prev)%nat ->
  nth i (path_step self dt prev Zrow) 0
  = nth i prev 0 * exp ((r self - 0.5 * sigma self ^ 2) * dt
                        + sigma self * sqrt dt * nth i Zrow 0).
Proof.
  intros Hlen Hi. unfold path_step.
  set (f := fun sz : R * R =>
              fst sz * exp ((r self - 0.5 * sigma self ^ 2) * dt
                            + sigma self * sqrt dt * snd sz)).
  rewrite (nth_indep _ 0 (f (0, 0)))
    by (rewrite length_map, length_combine; lia).
  rewrite map_nth, combine_nth by exact Hlen. reflexivity.
Qed.

Lemma path_rows_shape (self : MonteCarloPricing.t) (dt : R) (n : nat) :
  forall (Z : list (list R)) (prev : list R),
    List.length prev = n ->
    (forall row, In row Z -> List.length row = n) ->
    List.length (path_rows self dt prev Z) = List.length Z
    /\ forall row, In row (path_rows self dt prev Z) -> List.length row = n.
Proof.
  induction Z as [|Zrow Z IH]; intros prev Hprev HZ; simpl.
  - split; [reflexivity | intros row []].
  - assert (Hrow : List.length (path_step self dt prev Zrow) = n).
    { rewrite length_path_step, Hprev, (HZ Zrow) by (left; reflexivity). lia. }
    destruct (IH (path_step self dt prev Zrow) Hrow) as [IH1 IH2].
    { intros row Hin. apply HZ. right. exact Hin. }
    split; [lia|]. intros row [<- | Hin]; [exact Hrow | apply IH2, Hin].
Qed.

(** The value of a path after [t] steps, in closed form. *)
Lemma nth_path_rows (self : MonteCarloPricing.t) (dt : R) (n : nat) :
  forall (Z : list (list R)) (prev : list R) (t i : nat),
    List.length prev = n ->
    (forall row, In row Z -> List.length row = n) ->
    (t <= List.length Z)%nat -> (i < n)%nat ->
    nth i (nth t (prev :: path_rows self dt prev Z) []) 0
    = nth i prev 0
      * exp (INR t * ((r self - 0.5 * sigma self ^ 2) * dt)
             + sigma self * sqrt dt
               * psum (fun s => nth i (nth s Z []) 0) t).
Proof.
  induction Z as [|Zrow Z IH]; intros prev t i Hprev HZ Ht Hi.
  - simpl in Ht. assert (t = 0)%nat by lia. subst t. simpl.
    rewrite Rmult_0_l, Rmult_0_r, Rplus_0_l, exp_0. ring.
  - destruct t as [|t].
    + simpl. rewrite Rmult_0_l, Rmult_0_r, Rplus_0_l, exp_0. ring.
    + assert (HZrow : List.length Zrow = n) by (apply HZ; left; reflexivity).
      change (nth (Datatypes.S t) (prev :: path_rows self dt prev (Zrow :: Z)) [])
        with (nth t (path_step self dt prev Zrow
                     :: path_rows self dt (path_step self dt prev Zrow) Z) []).
      rewrite IH.
      * rewrite nth_path_step by lia.
        rewrite psum_shift, S_INR. simpl nth.
        rewrite Rmult_assoc, <- exp_plus. f_equal. f_equal. ring.
      * rewrite length_path_step. lia.
      * intros row Hin. apply HZ. right. exact Hin.
      * simpl in Ht. lia.
      * exact Hi.
Qed.

(** X6. [simulate_price_paths] with [k >= 1] steps stores a matrix of
    [k + 1] rows of [M] values whose first row is the spot price
    everywhere; the terminal prices and the parameters of the instance are
    left as they were. *)
Theorem simulate_price_paths_shape
    (self : MonteCarloPricing.t) (num_time_steps : nat) (g : np.random.state) :
  (1 <= num_time_steps)%nat ->
  let self' := fst (simulate_price_paths self num_time_steps g) in
  (exists paths,
     price_paths self' = Some paths
     /\ List.length paths = (num_time_steps + 1)%nat
     /\ (forall row, In row paths -> List.length row = N self)
     /\ nth 0 paths [] = repeat (S_0 self) (N self))
  /\ S_T self' = S_T self
  /\ (S_0 self', K self', T self', r self', sigma self', N self',
      discount_factor self')
     = (S_0 self, K self, T self, r self, sigma self, N self,
        discount_factor self).
Proof.
  intros Hk self'. unfold self', simulate_price_paths.
  pose proof (standard_normal_matrix_shape num_time_steps (N self) g) as [HZ1 HZ2].
  destruct (standard_normal_matrix num_time_steps (N self) g) as [Z g'].
  simpl in *. split; [|split; reflexivity].
  eexists. split; [reflexivity|].
  destruct (path_rows_shape self (T self / INR num_time_steps) (N self) Z
              (repeat (S_0 self) (N self)) (repeat_length _ _) HZ2) as [H1 H2].
  split; [simpl; lia|]. split; [|reflexivity].
  intros row [<- | Hin]; [apply repeat_length | apply H2, Hin].
Qed.

(** X7. Every simulated path is an exact geometric Brownian motion on the
    grid: after [t <= k] steps of size [dt = T / k] the path [i] stands at
    [S_0 * exp (t * (r - sigma^2 / 2) * dt + sigma * sqrt dt * (Z_0i + ... +
    Z_(t-1)i))], where [Z] is the matrix of variates drawn; with [S_0 > 0]
    it is positive, and at [t = k] the drift is [(r - sigma^2 / 2) * T]. *)
Theorem simulate_price_paths_closed_form
    (self : MonteCarloPricing.t) (num_time_steps : nat) (g : np.random.state)
    (t i : nat) :
  (1 <= num_time_steps)%nat ->
  (t <= num_time_steps)%nat -> (i < N self)%nat ->
  let dt := T self / INR num_time_steps in
  let Z := fst (standard_normal_matrix num_time_steps (N self) g) in
  let shocks := psum (fun s => nth i (nth s Z []) 0) t in
  exists paths,
    price_paths (fst (simulate_price_paths self num_time_steps g)) = Some paths
    /\ nth i (nth t paths []) 0
       = S_0 self * exp (INR t * ((r self - sigma self ^ 2 / 2) * dt)
                         + sigma self * sqrt dt * shocks)
    /\ (0 < S_0 self -> 0 < nth i (nth t paths []) 0)
    /\ (t = num_time_steps ->
        nth i (nth t paths []) 0
        = S_0 self * exp ((r self - sigma self ^ 2 / 2) * T self
                          + sigma self * sqrt dt * shocks)).
Proof.
  intros Hk Ht Hi dt Z shocks.
  unfold simulate_price_paths. fold dt.
  pose proof (standard_normal_matrix_shape num_time_steps (N self) g) as [HZ1 HZ2].
  unfold shocks, Z.
  destruct (standard_normal_matrix num_time_steps (N self) g) as [Z0 g'].
  simpl fst in *. simpl price_paths.
  eexists. split; [reflexivity|].
  assert (Hval :
    nth i (nth t (repeat (S_0 self) (N self)
                  :: path_rows self dt (repeat (S_0 self) (N self)) Z0) []) 0
    = S_0 self * exp (INR t * ((r self - sigma self ^ 2 / 2) * dt)
                      + sigma self * sqrt dt
                        * psum (fun s => nth i (nth s Z0 []) 0) t)).
  { rewrite (nth_path_rows self dt (N self)); auto.
    - rewrite nth_repeat_lt by exact Hi.
      replace (0.5 * sigma self ^ 2) with (sigma self ^ 2 / 2) by lra.
      reflexivity.
    - apply repeat_length.
    - lia. }
  split; [exact Hval|]. split.
  - intros HS. rewrite Hval. apply Rmult_lt_0_compat; [exact HS | apply exp_pos].
  - intros ->. rewrite Hval. f_equal. f_equal. f_equal. unfold dt. field.
    apply not_0_INR. lia.
Qed.

End PricePaths.

(** * The plotting method and the callers of the engines *)

(** ** MonteCarloSimulation.py: [plot_simulation_results] *)

(** What the matplotlib figures of the repository are given to show: the
    two-dimensional array passed to [ax.plot] (one row per time step, one
    column per line), the level of the horizontal line, and the right end
    of the x-axis.  Labels, colours and sizes are left out. *)
Record Figure : Type := mkFigure {
  plotted : list (list R);
  hline : R;
  xlim_right : nat
}.

Module MonteCarloFigure.
Section WithGenerator.
Context {G : np.random.BitGenerator}.

(** Reading [self.price_paths]. *)
Definition get_price_paths (self : MonteCarloPricing.t) : result (list (list R)) :=
  match MonteCarloPricing.price_paths self with
  | Some v => Return v
  | None =>
      Raise (AttributeError "'MonteCarloPricing' object has no attribute 'price_paths'")
  end.

(** [paths[:, :n]]: the first [n] columns. *)
Definition first_columns (n : nat) (paths : list (list R)) : list (list R) :=
  map (firstn n) paths.

Definition plot_simulation_results (self : MonteCarloPricing.t)
    (num_of_movements : nat) (g : np.random.state)
    : result Figure * MonteCarloPricing.t * np.random.state :=
  (* try: self.price_paths
     except AttributeError: self.simulate_price_paths(num_time_steps=252) *)
  let (self, g) :=
    match get_price_paths self with
    | Return _ => (self, g)
    | Raise _ => MonteCarloPricing.simulate_price_paths self 252 g
    end in
  let fig :=
    match get_price_paths self with
    | Return price_paths =>
        Return (mkFigure (first_columns num_of_movements price_paths)
                         (MonteCarloPricing.K self)
                         (List.length price_paths - 1))
    | Raise e => Raise e
    end in
  (fig, self, g).

End WithGenerator.
End MonteCarloFigure.

(** ** streamlit_app.py: [calculate_option_prices] *)

Module app.

Inductive OPTION_PRICING_MODEL : Type :=
  | BLACK_SCHOLES
  | MONTE_CARLO
  | BINOMIAL.

Definition value (m : OPTION_PRICING_MODEL) : string :=
  match m with
  | BLACK_SCHOLES => "Black-Scholes"
  | MONTE_CARLO => "Monte Carlo"
  | BINOMIAL => "Binomial-Tree"
  end.

(** The exceptions that leave [calculate_option_prices]: those of the
    engines, and those of the caller's own code. *)
Inductive app_exn : Type :=
  | EngineError (e : exn)
  | UnboundLocalError (name : string)
  | TupleIndexError
  | ZeroDivisionError.

Inductive app_result (A : Type) : Type :=
  | Ok (a : A)
  | Fail (e : app_exn).
Arguments Ok {A} a.
Arguments Fail {A} e.

Section WithLibraries.
Context {G : np.random.BitGenerator}.
Variable norm_cdf : R -> R.

(** The object bound to [model_instance]: an instance of one of the three
    classes. *)
Inductive model_instance : Type :=
  | IsBlackScholes (m : BlackScholesModel.t)
  | IsMonteCarlo (m : MonteCarloPricing.t)
  | IsBinomialTree (m : BinomialTreeModel.t).

(** [model_instance.calculate_option_price(option_type)], dispatched on the
    class of the instance. *)
Definition calculate_option_price (inst : model_instance) (option_type : pyobj)
    (g : np.random.state) : result R * model_instance * np.random.state :=
  match inst with
  | IsBlackScholes m =>
      (BlackScholesModel.calculate_option_price norm_cdf m option_type, inst, g)
  | IsBinomialTree m =>
      (BinomialTreeModel.calculate_option_price m option_type, inst, g)
  | IsMonteCarlo m =>
      let '(res, m', g') :=
        MonteCarloPricing.calculate_option_price m option_type g in
      (res, IsMonteCarlo m', g')
  end.

(** [args[i]] on the tuple of extra arguments. *)
Definition arg (args : list nat) (i : nat) : app_result nat :=
  match nth_error args i with
  | Some v => Ok v
  | None => Fail TupleIndexError
  end.

(** Lines 77 to 89: the branch that binds [model_instance].  The result is
    [Ok None] when no branch is taken and the name stays unbound.  The
    list holds the figures handed to [st.pyplot].  [days_to_maturity] is
    the number of days from today to the exercise date, which the date
    input keeps in the future; the divisions [T / number_of_time_steps] and
    [T / num_time_steps] of a Python float by the Python integer [0] raise
    [ZeroDivisionError]. *)
Definition bind_model_instance (model : string)
    (spot_price strike_price : R) (days_to_maturity : nat)
    (risk_free_rate sigma : R) (args : list nat) (g : np.random.state)
    : app_result (option model_instance) * list Figure * np.random.state :=
  if String.eqb model (value BLACK_SCHOLES) then
    (Ok (Some (IsBlackScholes
                 (BlackScholesModel.__init__ spot_price strike_price
                    (Z.of_nat days_to_maturity) risk_free_rate sigma))),
     [], g)
  else if String.eqb model (value MONTE_CARLO) then
    match arg args 0 with
    | Fail e => (Fail e, [], g)
    | Ok number_of_simulations =>
        let (m, g) :=
          MonteCarloPricing.__init__ spot_price strike_price
            (Z.of_nat days_to_maturity) risk_free_rate sigma
            number_of_simulations g in
        match days_to_maturity with
        | O => (Fail ZeroDivisionError, [], g)
        | Datatypes.S _ =>
            let (m, g) :=
              MonteCarloPricing.simulate_price_paths m days_to_maturity g in
            match arg args 1 with
            | Fail e => (Fail e, [], g)
            | Ok num_of_movements =>
                let '(fig, m, g) :=
                  MonteCarloFigure.plot_simulation_results m num_of_movements g in
                match fig with
                | Raise e => (Fail (EngineError e), [], g)
                | Return fig => (Ok (Some (IsMonteCarlo m)), [fig], g)
                end
            end
        end
    end
  else if String.eqb model (value BINOMIAL) then
    match arg args 0 with
    | Fail e => (Fail e, [], g)
    | Ok O => (Fail ZeroDivisionError, [], g)
    | Ok number_of_time_steps =>
        (Ok (Some (IsBinomialTree
                     (BinomialTreeModel.__init__ spot_price strike_price
                        (Z.of_nat days_to_maturity) risk_free_rate sigma
                        number_of_time_steps))),
         [], g)
    end
  else (Ok None, [], g).

Definition calculate_option_prices (model : string)
    (spot_price strike_price : R) (days_to_maturity : nat)
    (risk_free_rate sigma : R) (args : list nat) (g : np.random.state)
    : app_result (R * R) * list Figure * np.random.state :=
  let '(bound, figures, g) :=
    bind_model_instance model spot_price strike_price days_to_maturity
      risk_free_rate sigma args g in
  match bound with
  | Fail e => (Fail e, figures, g)
  | Ok None => (Fail (UnboundLocalError "model_instance"), figures, g)
  | Ok (Some inst) =>
      let '(call, inst, g) := calculate_option_price inst (PyEnum CALL_OPTION) g in
      match call with
      | Raise e => (Fail (EngineError e), figures, g)
      | Return call_option_price =>
          let '(put, inst, g) :=
            calculate_option_price inst (PyEnum PUT_OPTION) g in
          match put with
          | Raise e => (Fail (EngineError e), figures, g)
          | Return put_option_price =>
              (Ok (call_option_price, put_option_price), figures, g)
          end
      end
  end.

End WithLibraries.
End app.

(** ** Properties of the plotting method *)

Section PlotFacts.
Context {G : np.random.BitGenerator}.
Import MonteCarloPricing MonteCarloFigure.

Lemma price_paths_simulate (self : MonteCarloPricing.t) (k : nat)
    (g : np.random.state) :
  let S0row := repeat (S_0 self) (N self) in
  let Z := fst (standard_normal_matrix k (N self) g) in
  price_paths (fst (simulate_price_paths self k g))
  = Some (S0row :: path_rows self (T self / INR k) S0row Z)
  /\ K (fst (simulate_price_paths self k g)) = K self
  /\ List.length (path_rows self (T self / INR k) S0row Z) = k
  /\ forall row, In row (S0row :: path_rows self (T self / INR k) S0row Z) ->
                 List.length row = N self.
Proof.
  intros S0row Z. unfold simulate_price_paths, Z.
  pose proof (standard_normal_matrix_shape k (N self) g) as [HZ1 HZ2].
  destruct (standard_normal_matrix k (N self) g) as [Z0 g']. simpl in *.
  destruct (path_rows_shape self (T self / INR k) (N self) Z0 S0row
              (repeat_length _ _) HZ2) as [H1 H2].
  split; [reflexivity|]. split; [reflexivity|]. split; [lia|].
  intros row [<- | Hin]; [apply repeat_length | apply H2, Hin].
Qed.


End PlotFacts.

(** ** Properties of [calculate_option_prices] *)

Section AppFacts.
Context {G : np.random.BitGenerator}.
Variable norm_cdf : R -> R.
Import app.

Lemma value_injective (m1 m2 : OPTION_PRICING_MODEL) :
  value m1 = value m2 -> m1 = m2.
Proof. destruct m1, m2; simpl; intros H; try reflexivity; discriminate H. Qed.

Lemma eqb_value_false (model : string) :
  (forall m, model <> value m) ->
  String.eqb model (value BLACK_SCHOLES) = false
  /\ String.eqb model (value MONTE_CARLO) = false
  /\ String.eqb model (value BINOMIAL) = false.
Proof.
  intros H. repeat split; apply String.eqb_neq; apply H.
Qed.

(** The three branches of [bind_model_instance], one equation each. *)
Lemma bind_black_scholes S0 K0 days r0 sigma0 args (g : np.random.state) :
  bind_model_instance (value BLACK_SCHOLES) S0 K0 days r0 sigma0 args g
  = (Ok (Some (IsBlackScholes
                 (BlackScholesModel.__init__ S0 K0 (Z.of_nat days) r0 sigma0))),
     [], g).
Proof. reflexivity. Qed.

Lemma bind_binomial S0 K0 days r0 sigma0 args (g : np.random.state) :
  bind_model_instance (value BINOMIAL) S0 K0 days r0 sigma0 args g
  = match args with
    | [] => (Fail TupleIndexError, [], g)
    | O :: _ => (Fail ZeroDivisionError, [], g)
    | steps :: _ =>
        (Ok (Some (IsBinomialTree
                     (BinomialTreeModel.__init__ S0 K0 (Z.of_nat days) r0 sigma0
                        steps))),
         [], g)
    end.
Proof. destruct args as [|[|n] args]; reflexivity. Qed.

Lemma bind_monte_carlo S0 K0 days r0 sigma0 args (g : np.random.state) :
  bind_model_instance (value MONTE_CARLO) S0 K0 days r0 sigma0 args g
  = match args with
    | [] => (Fail TupleIndexError, [], g)
    | M :: rest =>
        let m0 := fst (MonteCarloPricing.__init__ S0 K0 (Z.of_nat days)
                         r0 sigma0 M g) in
        match days with
        | O => (Fail ZeroDivisionError, [], np.random.seeded 20)
        | Datatypes.S _ =>
            let sim :=
              MonteCarloPricing.simulate_price_paths m0 days
                (np.random.seeded 20) in
            match rest with
            | [] => (Fail TupleIndexError, [], snd sim)
            | num :: _ =>
                let plot :=
                  MonteCarloFigure.plot_simulation_results (fst sim) num
                    (snd sim) in
                match fst (fst plot) with
                | Raise e => (Fail (EngineError e), [], snd plot)
                | Return fig =>
                    (Ok (Some (IsMonteCarlo (snd (fst plot)))), [fig], snd plot)
                end
            end
        end
    end.
Proof.
  destruct args as [|M rest]; [reflexivity|].
  destruct days as [|d]; [reflexivity|].
  unfold bind_model_instance.
  change (String.eqb (value MONTE_CARLO) (value BLACK_SCHOLES)) with false.
  change (String.eqb (value MONTE_CARLO) (value MONTE_CARLO)) with true.
  cbv iota. change (arg (M :: rest) 0) with (Ok M). cbv iota.
  change (MonteCarloPricing.__init__ S0 K0 (Z.of_nat (Datatypes.S d)) r0 sigma0 M g)
    with (fst (MonteCarloPricing.__init__ S0 K0 (Z.of_nat (Datatypes.S d))
                 r0 sigma0 M g), np.random.seeded 20).
  cbv iota beta.
  destruct (MonteCarloPricing.simulate_price_paths _ _ _) as [m1 g1].
  cbn [fst snd].
  destruct rest as [|num rest]; [reflexivity|].
  change (arg (M :: num :: rest) 1) with (Ok num). cbv iota.
  destruct (MonteCarloFigure.plot_simulation_results m1 num g1) as [[fig m2] g2].
  cbn [fst snd]. destruct fig; reflexivity.
Qed.

(** X9. [calculate_option_prices] fails with [UnboundLocalError] on
    [model_instance] exactly when the model name is none of
    ['Black-Scholes'], ['Monte Carlo'] and ['Binomial-Tree']; in that case
    nothing is displayed and the generator is left alone. *)
Theorem unknown_model_unbound
    (model : string) (S0 K0 : R) (days : nat) (r0 sigma0 : R)
    (args : list nat) (g : np.random.state) :
  let res := calculate_option_prices norm_cdf model S0 K0 days r0 sigma0 args g in
  ((forall m, model <> value m) ->
   res = (Fail (UnboundLocalError "model_instance"), [], g))
  /\ (fst (fst res) = Fail (UnboundLocalError "model_instance") ->
      forall m, model <> value m).
Proof.
  intros res. split.
  - intros H. destruct (eqb_value_false model H) as (H1 & H2 & H3).
    unfold res, calculate_option_prices, bind_model_instance.
    rewrite H1, H2, H3. reflexivity.
  - intros Hres m ->. unfold res, calculate_option_prices in Hres.
    destruct m.
    + rewrite bind_black_scholes in Hres. destruct days; discriminate Hres.
    + rewrite bind_monte_carlo in Hres.
      destruct args as [|M rest]; [discriminate Hres|].
      destruct days as [|d]; [discriminate Hres|]. cbv zeta in Hres.
      destruct rest as [|num rest]; [discriminate Hres|].
      destruct (fst (fst (MonteCarloFigure.plot_simulation_results _ _ _)));
        [|discriminate Hres].
      unfold app.calculate_option_price in Hres.
      destruct (MonteCarloPricing.calculate_option_price _ (PyEnum CALL_OPTION) _)
        as [[res1 m1] g1].
      destruct res1; [|discriminate Hres].
      destruct (MonteCarloPricing.calculate_option_price m1 (PyEnum PUT_OPTION) g1)
        as [[res2 m2] g2].
      destruct res2; discriminate Hres.
    + rewrite bind_binomial in Hres.
      destruct args as [|[|n] rest]; try discriminate Hres.
      unfold app.calculate_option_price in Hres.
      destruct (BinomialTreeModel.calculate_option_price _ (PyEnum CALL_OPTION));
        [|discriminate Hres].
      destruct (BinomialTreeModel.calculate_option_price _ (PyEnum PUT_OPTION));
        discriminate Hres.
Qed.


End AppFacts.

Section AppPrices.
Context {G : np.random.BitGenerator}.
Variable norm_cdf : R -> R.
Import app.

Lemma first_query_fresh S0 K0 days r0 sigma0 M (m : MonteCarloPricing.t)
    (g : np.random.state) (ot : OPTION_TYPE) :
  instance_invariant S0 K0 days r0 sigma0 M m ->
  MonteCarloPricing.S_T m = None ->
  let prices := map (gbm_terminal S0 r0 sigma0 (IZR days / 365))
                    (fst (np.random.standard_normal M g)) in
  MonteCarloPricing.calculate_option_price m (PyEnum ot) g
  = (Return (exp (- r0 * (IZR days / 365))
             * np.mean (map (simulation_payoff K0 ot) prices)),
     fst (MonteCarloPricing.simulate_terminal_prices m g),
     snd (np.random.standard_normal M g))
  /\ MonteCarloPricing.S_T (fst (MonteCarloPricing.simulate_terminal_prices m g))
     = Some prices.
Proof.
  intros Hinv Hnone prices.
  pose proof Hinv as (H1 & H2 & H3 & H4 & H5 & H6 & H7 & _).
  assert (HST : MonteCarloPricing.S_T
                  (fst (MonteCarloPricing.simulate_terminal_prices m g))
                = Some prices).
  { rewrite S_T_simulate, H6. unfold prices.
    rewrite (terminal_price_gbm S0 K0 days r0 sigma0 M m Hinv). reflexivity. }
  split; [|exact HST].
  destruct (calculate_option_price_unfold m (PyEnum ot) g) as (v & Hv & Heq).
  unfold ensure_terminal_prices in Hv, Heq. rewrite Hnone in Hv, Heq.
  rewrite HST in Hv. injection Hv as <-.
  rewrite Heq, payoffs_enum.
  destruct (fields_simulate m g) as (_ & F2 & _ & _ & _ & _ & F7 & _).
  rewrite F2, F7, H2, H7.
  unfold MonteCarloPricing.simulate_terminal_prices. rewrite H6.
  destruct (np.random.standard_normal M g) as [Z g']. reflexivity.
Qed.

Lemma later_query S0 K0 days r0 sigma0 M (m : MonteCarloPricing.t)
    (g : np.random.state) (ot : OPTION_TYPE) (prices : list R) :
  instance_invariant S0 K0 days r0 sigma0 M m ->
  MonteCarloPricing.S_T m = Some prices ->
  MonteCarloPricing.calculate_option_price m (PyEnum ot) g
  = (Return (exp (- r0 * (IZR days / 365))
             * np.mean (map (simulation_payoff K0 ot) prices)),
     m, g).
Proof.
  intros (H1 & H2 & H3 & H4 & H5 & H6 & H7 & _) Hsome.
  destruct (calculate_option_price_unfold m (PyEnum ot) g) as (v & Hv & Heq).
  unfold ensure_terminal_prices in Hv, Heq. rewrite Hsome in Hv, Heq.
  cbn [fst snd] in Hv, Heq. rewrite Hsome in Hv. injection Hv as <-.
  rewrite Heq, payoffs_enum, H2, H7. reflexivity.
Qed.

Lemma plot_with_paths (m : MonteCarloPricing.t) (num : nat)
    (g : np.random.state) (paths : list (list R)) :
  MonteCarloPricing.price_paths m = Some paths ->
  MonteCarloFigure.plot_simulation_results m num g
  = (Return (mkFigure (MonteCarloFigure.first_columns num paths)
               (MonteCarloPricing.K m) (List.length paths - 1)),
     m, g).
Proof.
  intros Hp.
  unfold MonteCarloFigure.plot_simulation_results, MonteCarloFigure.get_price_paths.
  rewrite Hp. cbn [fst snd]. rewrite Hp. reflexivity.
Qed.

Lemma snd_simulate_price_paths (m : MonteCarloPricing.t) (k : nat)
    (g : np.random.state) :
  snd (MonteCarloPricing.simulate_price_paths m k g)
  = snd (MonteCarloPricing.standard_normal_matrix k (MonteCarloPricing.N m) g)
  /\ MonteCarloPricing.S_T (fst (MonteCarloPricing.simulate_price_paths m k g))
     = MonteCarloPricing.S_T m.
Proof.
  unfold MonteCarloPricing.simulate_price_paths.
  destruct (MonteCarloPricing.standard_normal_matrix k (MonteCarloPricing.N m) g)
    as [Z g']. split; reflexivity.
Qed.

(** X11. The simulation branch of [calculate_option_prices], with a
    maturity of at least one day and [M >= 1] simulations: the generator is
    seeded, the price paths take [days * M] variates, and the [M] variates
    that follow give the terminal prices from which both prices are
    computed; one figure is displayed, over [days] steps.  The prices do
    not depend on the state of the generator before the call. *)
Theorem monte_carlo_branch
    (S0 K0 : R) (days : nat) (r0 sigma0 : R) (M num : nat) (rest : list nat)
    (g : np.random.state) :
  (1 <= days)%nat -> (1 <= M)%nat ->
  let T := IZR (Z.of_nat days) / 365 in
  let g1 := snd (MonteCarloPricing.standard_normal_matrix days M
                   (np.random.seeded 20)) in
  let prices := map (gbm_terminal S0 r0 sigma0 T)
                    (fst (np.random.standard_normal M g1)) in
  exists fig,
    calculate_option_prices norm_cdf (value MONTE_CARLO) S0 K0 days r0 sigma0
      (M :: num :: rest) g
    = (Ok (exp (- r0 * T) * np.mean (map (simulation_payoff K0 CALL_OPTION) prices),
           exp (- r0 * T) * np.mean (map (simulation_payoff K0 PUT_OPTION) prices)),
       [fig], snd (np.random.standard_normal M g1))
    /\ xlim_right fig = days
    /\ hline fig = K0
    /\ List.length (plotted fig) = (days + 1)%nat.
Proof.
  intros Hdays HM T g1 prices.
  unfold calculate_option_prices. rewrite bind_monte_carlo.
  destruct days as [|d]; [lia|]. cbv zeta.
  set (m0 := fst (MonteCarloPricing.__init__ S0 K0 (Z.of_nat (S d)) r0 sigma0 M g)).
  assert (Hinst0 : instance S0 K0 (Z.of_nat (S d)) r0 sigma0 M m0)
    by apply instance_init.
  destruct (price_paths_simulate m0 (S d) (np.random.seeded 20))
    as (Hpaths & HK & Hlen & _).
  destruct (snd_simulate_price_paths m0 (S d) (np.random.seeded 20))
    as (Hg1 & HST1).
  pose proof (instance_simulate_price_paths _ _ _ _ _ _ m0 (S d)
                (np.random.seeded 20) Hinst0 Hdays) as Hinst1.
  change (MonteCarloPricing.N m0) with M in Hg1. fold g1 in Hg1.
  change (MonteCarloPricing.S_T m0) with (@None (list R)) in HST1.
  change (MonteCarloPricing.K m0) with K0 in HK.
  set (sim := MonteCarloPricing.simulate_price_paths m0 (S d)
                (np.random.seeded 20)) in *.
  rewrite (plot_with_paths (fst sim) num (snd sim) _ Hpaths).
  cbn [fst snd]. eexists. split; [|split; [|split]].
  - unfold app.calculate_option_price.
    apply instance_has_invariant in Hinst1.
    destruct (first_query_fresh S0 K0 (Z.of_nat (S d)) r0 sigma0 M (fst sim)
                (snd sim) CALL_OPTION Hinst1 HST1) as [Hq1 HST2].
    rewrite Hq1.
    assert (Hinv2 : instance_invariant S0 K0 (Z.of_nat (S d)) r0 sigma0 M
                      (fst (MonteCarloPricing.simulate_terminal_prices
                              (fst sim) (snd sim))))
      by (apply invariant_simulate; exact Hinst1).
    rewrite (later_query S0 K0 (Z.of_nat (S d)) r0 sigma0 M _ _ PUT_OPTION _
               Hinv2 HST2).
    rewrite Hg1. reflexivity.
  - cbn [xlim_right]. cbn [List.length]. rewrite Hlen. lia.
  - cbn [hline]. exact HK.
  - cbn [plotted]. unfold MonteCarloFigure.first_columns.
    rewrite length_map. cbn [List.length]. rewrite Hlen. lia.
Qed.

Hypothesis Hcdf : standard_normal_cdf norm_cdf.


End AppPrices.

(** * util/ticker.py *)

Module Ticker.

(** A pandas [DataFrame] of prices, as far as the class uses one: the
    column labels and the rows, oldest first, each row with one value per
    column. *)
Record DataFrame : Type := mkDataFrame {
  columns : list string;
  rows : list (list R)
}.

(** [len(data)]: the number of rows. *)
Definition len (data : DataFrame) : nat := List.length (rows data).


(** The position of a label among the columns. *)
Fixpoint position (column_name : string) (labels : list string) : option nat :=
  match labels with
  | [] => None
  | label :: labels' =>
      if String.eqb column_name label then Some O
      else option_map Datatypes.S (position column_name labels')
  end.

(** [data[column_name]] for a label that is a column: the series of its
    values, one per row. *)
Definition column (data : DataFrame) (k : nat) : list R :=
  map (fun row => nth k row 0) (rows data).

(** [series.iloc[i]] for a Python integer [i]: negative positions count
    from the end, and a position outside the series raises [IndexError]. *)
Definition iloc (series : list R) (i : Z) : result R :=
  let n := Z.of_nat (List.length series) in
  if andb (0 <=? i)%Z (i <? n)%Z then Return (nth (Z.to_nat i) series 0)
  else if andb (- n <=? i)%Z (i <? 0)%Z then
    Return (nth (Z.to_nat (n + i)) series 0)
  else Raise (IndexError "single positional indexer is out-of-bounds").


Definition get_columns (data : option DataFrame) : option (list string) :=
  match data with
  | None => None
  | Some data => Some (columns data)
  end.

Definition get_last_price (data : option DataFrame) (column_name : option string)
    : result (option R) :=
  match data, column_name with
  | None, _ => Return None
  | _, None => Return None
  | Some data, Some column_name =>
      match position column_name (columns data) with
      | None => Return None
      | Some k =>
          match iloc (column data k) (Z.of_nat (len data) - 1) with
          | Return price => Return (Some price)
          | Raise e => Raise e
          end
      end
  end.

End Ticker.

Section TickerFacts.
Import Ticker.

Lemma position_none (column_name : string) (labels : list string) :
  position column_name labels = None <-> ~ In column_name labels.
Proof.
  induction labels as [|label labels IH]; simpl.
  - tauto.
  - destruct (String.eqb column_name label) eqn:E.
    + apply String.eqb_eq in E. subst. split; [discriminate | intros H; elim H; auto].
    + apply String.eqb_neq in E.
      destruct (position column_name labels) as [k|]; simpl.
      * split; [discriminate|]. intros H. exfalso. apply H. right.
        destruct (classic (In column_name labels)) as [Hin|Hin]; [exact Hin|].
        apply IH in Hin. discriminate Hin.
      * split; [|reflexivity]. intros _ [H|H]; [congruence|].
        destruct IH as [IH _]. exact (IH eq_refl H).
Qed.

Lemma position_some (column_name : string) (labels : list string) (k : nat) :
  position column_name labels = Some k ->
  (k < List.length labels)%nat /\ nth k labels EmptyString = column_name.
Proof.
  revert k. induction labels as [|label labels IH]; simpl; intros k H;
    [discriminate|].
  destruct (String.eqb column_name label) eqn:E.
  - injection H as <-. apply String.eqb_eq in E. split; [lia | auto].
  - destruct (position column_name labels) as [k'|]; simpl in H; [|discriminate].
    injection H as <-. destruct (IH k' eq_refl). split; [lia | assumption].
Qed.

Lemma iloc_last (series : list R) :
  series <> [] ->
  iloc series (Z.of_nat (List.length series) - 1) = Return (last series 0).
Proof.
  intros Hne. unfold iloc.
  assert (Hlen : (0 < List.length series)%nat)
    by (destruct series; [congruence | simpl; lia]).
  replace (andb (0 <=? Z.of_nat (List.length series) - 1)%Z
             (Z.of_nat (List.length series) - 1 <? Z.of_nat (List.length series))%Z)
    with true
    by (symmetry; apply andb_true_intro; split;
        [apply Z.leb_le | apply Z.ltb_lt]; lia).
  replace (Z.to_nat (Z.of_nat (List.length series) - 1))
    with (List.length series - 1)%nat by lia.
  f_equal. clear Hlen.
  induction series as [|x [|y series] IH]; [congruence | reflexivity|].
  change (last (x :: y :: series) 0) with (last (y :: series) 0).
  rewrite <- IH by discriminate. simpl. rewrite Nat.sub_0_r. reflexivity.
Qed.

Lemma last_column (data : DataFrame) (k : nat) :
  rows data <> [] ->
  last (column data k) 0 = nth k (last (rows data) []) 0.
Proof.
  unfold column. intros Hne.
  induction (rows data) as [|row [|row' rs] IH]; [congruence | reflexivity|].
  change (last (map (fun row0 => nth k row0 0) (row :: row' :: rs)) 0)
    with (last (map (fun row0 => nth k row0 0) (row' :: rs)) 0).
  rewrite IH by discriminate. reflexivity.
Qed.

(** X13. [get_last_price] returns [None] when the data is [None], the
    column name is [None] or the name is not a column; for a frame with at
    least one row it returns the value of the named column in the last
    row; for a frame without rows that has the column it raises
    [IndexError]. *)
Theorem get_last_price_cases
    (data : DataFrame) (column_name : string) :
  (forall c, get_last_price None c = Return None)
  /\ get_last_price (Some data) None = Return None
  /\ (~ In column_name (columns data) ->
      get_last_price (Some data) (Some column_name) = Return None)
  /\ (In column_name (columns data) -> rows data <> [] ->
      exists k, (k < List.length (columns data))%nat
                /\ nth k (columns data) EmptyString = column_name
                /\ get_last_price (Some data) (Some column_name)
                   = Return (Some (nth k (last (rows data) []) 0)))
  /\ (In column_name (columns data) -> rows data = [] ->
      exists msg, get_last_price (Some data) (Some column_name)
                  = Raise (IndexError msg)).
Proof.
  split; [reflexivity|]. split; [reflexivity|]. split; [|split].
  - intros Hnot. apply position_none in Hnot. simpl. rewrite Hnot. reflexivity.
  - intros Hin Hrows. simpl.
    destruct (position column_name (columns data)) as [k|] eqn:E.
    + destruct (position_some _ _ _ E) as [Hk Hnth].
      exists k. split; [exact Hk|]. split; [exact Hnth|].
      unfold len. replace (List.length (rows data))
        with (List.length (column data k)) by (unfold column; apply length_map).
      rewrite iloc_last.
      * rewrite last_column by exact Hrows. reflexivity.
      * unfold column. destruct (rows data); [congruence | discriminate].
    + apply position_none in E. contradiction.
  - intros Hin Hrows. simpl.
    destruct (position column_name (columns data)) as [k|] eqn:E.
    + unfold len, column. rewrite Hrows. eexists. reflexivity.
    + apply position_none in E. contradiction.
Qed.


End TickerFacts.

(** * The further properties at concrete inputs *)

(** X1 with three steps. *)
Lemma lattice_put_call_parity_witness :
  exists call put,
    BinomialTreeModel.calculate_option_price
      (BinomialTreeModel.__init__ 100 100 365 0.05 0.2 3) (PyEnum CALL_OPTION)
    = Return call
    /\ BinomialTreeModel.calculate_option_price
         (BinomialTreeModel.__init__ 100 100 365 0.05 0.2 3) (PyEnum PUT_OPTION)
       = Return put
    /\ call - put = 100 - 100 * exp (- (0.05) * (365 / 365)).
Proof.
  apply (lattice_put_call_parity 100 100 365 0.05 0.2 3); [lra | lra | lia].
Defined.


(** X3 at [S = K = 100], one year, [r = 5%], [sigma = 20%]. *)
Lemma black_scholes_price_bounds_witness :
  exists call put,
    BlackScholesModel.calculate_option_price normal_distribution
      (BlackScholesModel.__init__ 100 100 365 0.05 0.2) (PyEnum CALL_OPTION)
    = Return call
    /\ BlackScholesModel.calculate_option_price normal_distribution
         (BlackScholesModel.__init__ 100 100 365 0.05 0.2) (PyEnum PUT_OPTION)
       = Return put
    /\ Rmax (100 - 100 * exp (- (0.05) * (365 / 365))) 0 <= call <= 100
    /\ Rmax (100 * exp (- (0.05) * (365 / 365)) - 100) 0 <= put
       <= 100 * exp (- (0.05) * (365 / 365)).
Proof.
  apply (black_scholes_price_bounds normal_distribution normal_distribution_cdf
           100 100 365 0.05 0.2); lra.
Defined.

(** X4 on a fresh instance with two simulations. *)
Lemma monte_carlo_put_call_parity_witness :
  let self :=
    fst (MonteCarloPricing.__init__ (G := counting_generator)
           100 100 365 0.05 0.2 2 (after_draws 0)) in
  let call_query :=
    MonteCarloPricing.calculate_option_price self (PyEnum CALL_OPTION)
      (after_draws 20) in
  let put_query :=
    MonteCarloPricing.calculate_option_price (snd (fst call_query))
      (PyEnum PUT_OPTION) (after_draws 50) in
  exists prices call put,
    MonteCarloPricing.S_T (snd (fst call_query)) = Some prices
    /\ MonteCarloPricing.S_T (snd (fst put_query)) = Some prices
    /\ List.length prices = 2%nat
    /\ fst (fst call_query) = Return call
    /\ fst (fst put_query) = Return put
    /\ call - put = exp (- (0.05) * (365 / 365)) * (np.mean prices - 100).
Proof.
  apply (monte_carlo_put_call_parity (G := counting_generator)
           100 100 365 0.05 0.2 2); [lia | apply instance_init].
Defined.

(** X5 on a fresh instance with two simulations. *)
Lemma monte_carlo_price_bounds_witness :
  let self :=
    fst (MonteCarloPricing.__init__ (G := counting_generator)
           100 100 365 0.05 0.2 2 (after_draws 0)) in
  let query :=
    MonteCarloPricing.calculate_option_price self (PyEnum PUT_OPTION)
      (after_draws 20) in
  exists prices price,
    MonteCarloPricing.S_T (snd (fst query)) = Some prices
    /\ (forall s, In s prices -> 0 < s)
    /\ fst (fst query) = Return price
    /\ 0 <= price
    /\ price <= exp (- (0.05) * (365 / 365)) * 100.
Proof.
  apply (monte_carlo_price_bounds (G := counting_generator)
           100 100 365 0.05 0.2 2 _ (after_draws 20) PUT_OPTION);
    [lra | lra | lia | apply instance_init].
Defined.

(** X6 with three steps and two simulations. *)
Lemma simulate_price_paths_shape_witness :
  let self :=
    fst (MonteCarloPricing.__init__ (G := counting_generator)
           100 100 365 0.05 0.2 2 (after_draws 0)) in
  let self' :=
    fst (MonteCarloPricing.simulate_price_paths self 3 (after_draws 20)) in
  (exists paths,
     MonteCarloPricing.price_paths self' = Some paths
     /\ List.length paths = 4%nat
     /\ (forall row, In row paths -> List.length row = 2%nat)
     /\ nth 0 paths [] = [100; 100])
  /\ MonteCarloPricing.S_T self' = None.
Proof.
  intros self self'.
  destruct (simulate_price_paths_shape (G := counting_generator) self 3
              (after_draws 20)) as (Hpaths & HST & _); [lia|].
  split; [exact Hpaths | exact HST].
Defined.

(** X7 with three steps: the second path after two steps. *)
Lemma simulate_price_paths_closed_form_witness :
  let self :=
    fst (MonteCarloPricing.__init__ (G := counting_generator)
           100 100 365 0.05 0.2 2 (after_draws 0)) in
  let dt := 365 / 365 / INR 3 in
  exists paths,
    MonteCarloPricing.price_paths
      (fst (MonteCarloPricing.simulate_price_paths self 3 (after_draws 20)))
    = Some paths
    /\ nth 1 (nth 2 paths []) 0
       = 100 * exp (INR 2 * ((0.05 - 0.2 ^ 2 / 2) * dt)
                    + 0.2 * sqrt dt * (0 + INR 21 + INR 23))
    /\ 0 < nth 1 (nth 2 paths []) 0.
Proof.
  intros self dt.
  destruct (simulate_price_paths_closed_form (G := counting_generator) self 3
              (after_draws 20) 2 1) as (paths & Hpaths & Hval & Hpos & _);
    [lia | lia | simpl; lia|].
  exists paths. split; [exact Hpaths|]. split; [exact Hval|].
  apply Hpos. simpl. lra.
Defined.

(** X11 with a maturity of two days, two simulations and one path
    displayed. *)
Lemma monte_carlo_branch_witness :
  let T := 2 / 365 in
  let g1 := after_draws 24 in
  let prices := [gbm_terminal 100 0.05 0.2 T (INR 24);
                 gbm_terminal 100 0.05 0.2 T (INR 25)] in
  exists fig,
    app.calculate_option_prices (G := counting_generator) normal_distribution
      (app.value app.MONTE_CARLO) 100 100 2 0.05 0.2 [2; 1]%nat (after_draws 7)
    = (app.Ok (exp (- (0.05) * T)
               * np.mean (map (simulation_payoff 100 CALL_OPTION) prices),
               exp (- (0.05) * T)
               * np.mean (map (simulation_payoff 100 PUT_OPTION) prices)),
       [fig], after_draws 26)
    /\ xlim_right fig = 2%nat
    /\ hline fig = 100
    /\ List.length (plotted fig) = 3%nat.
Proof.
  apply (monte_carlo_branch (G := counting_generator) normal_distribution
           100 100 2 0.05 0.2 2 1 [] (after_draws 7)); lia.
Defined.

